(** * Gold implied-volatility surface: the quant core of [update_surface]

    A shallow embedding of the callback [update_surface] of [src/goldIV.py]
    and of the pandas / numpy operations it is written with.

    Conventions of the embedding.
    - A Python float is the rational it denotes ([Q]); rounding, [nan] and
      the infinities are outside the model.  A Python [int] is a [Z].
    - A calendar date is its day ordinal ([Z]); the difference of two dates
      in days is the difference of the ordinals.
    - A raised exception is a value of [exn]; code that may raise lives in
      the [result] monad, and the order of the binds is the order of
      evaluation of the source.
    - The two library routines whose algorithm is not part of the
      repository, [Series.argsort] and [scipy.interpolate.Rbf], are
      section variables. *)

From Stdlib Require Import QArith Qabs Lqa ZArith String List Bool Lia.
From Stdlib Require Import Permutation Sorted.
Import ListNotations.
Local Open Scope string_scope.
Local Open Scope list_scope.
Local Open Scope Q_scope.

(* ------------------------------------------------------------------ *)
(** ** Exceptions and the error monad *)

Inductive exn : Type :=
| KeyError (key : string)            (* a missing DataFrame column *)
| IndexError                         (* a positional index out of bounds *)
| UnboundLocalError (name : string)  (* a local read before assignment *)
| LibraryError (cls : string).       (* raised inside a library, by class *)

(** [type(e).__name__] *)
Definition exn_class (e : exn) : string :=
  match e with
  | KeyError _ => "KeyError"
  | IndexError => "IndexError"
  | UnboundLocalError _ => "UnboundLocalError"
  | LibraryError cls => cls
  end.

Inductive result (A : Type) : Type :=
| Return (a : A)
| Raise (e : exn).
Arguments Return {A} a.
Arguments Raise {A} e.

Definition bind {A B : Type} (m : result A) (k : A -> result B) : result B :=
  match m with
  | Return a => k a
  | Raise e => Raise e
  end.

Notation "v <- m ;; k" := (bind m (fun v => k))
  (at level 61, m at next level, right associativity).
Notation "' p <- m ;; k" := (bind m (fun v => let p := v in k))
  (at level 61, p pattern, m at next level, right associativity).

(** The request fails with an exception of class [cls]. *)
Definition fails_with {A : Type} (r : result A) (cls : string) : Prop :=
  match r with
  | Raise e => exn_class e = cls
  | Return _ => False
  end.

(* ------------------------------------------------------------------ *)
(** ** Numbers *)

(** Python's [a > b] and [a < b] on floats. *)
Definition Qgtb (a b : Q) : bool := negb (Qle_bool a b).
Definition Qltb (a b : Q) : bool := negb (Qle_bool b a).

Definition Qmin2 (a b : Q) : Q := if Qle_bool a b then a else b.
Definition Qmax2 (a b : Q) : Q := if Qle_bool a b then b else a.

(** [Series.min()] and [Series.max()].  On an empty Series pandas returns
    [nan]; the callback never gets there, because the column access on an
    empty frame raises first (see [column]). *)
Definition Zseries_min (s : list Z) : Z :=
  match s with [] => 0%Z | a :: r => fold_left Z.min r a end.
Definition Zseries_max (s : list Z) : Z :=
  match s with [] => 0%Z | a :: r => fold_left Z.max r a end.
Definition Qseries_min (s : list Q) : Q :=
  match s with [] => 0 | a :: r => fold_left Qmin2 r a end.
Definition Qseries_max (s : list Q) : Q :=
  match s with [] => 0 | a :: r => fold_left Qmax2 r a end.

(** The feed-to-chain unit conversion, the literal [10.885] of the source. *)
Definition multiplier : Q := 10.885.

(* ------------------------------------------------------------------ *)
(** ** The quote source ([yf.Ticker]) *)

Definition date : Type := Z.

(** A row of [chain.calls]. *)
Record OptionRow : Type := {
  strike : Q;
  impliedVolatility : Q
}.

Record Ticker : Type := {
  history_Close : list Q;                  (* ticker.history(period="1d")['Close'] *)
  options : list date;                     (* ticker.options *)
  option_chain_calls : date -> list OptionRow  (* ticker.option_chain(exp).calls *)
}.

(** [s.iloc[-1]] *)
Definition iloc_last (s : list Q) : result Q :=
  match rev s with
  | [] => Raise IndexError
  | c :: _ => Return c
  end.

(** [l[i:j]] for [0 <= i <= j]. *)
Definition slice {A : Type} (i j : nat) (l : list A) : list A :=
  firstn (j - i) (skipn i l).

(* ------------------------------------------------------------------ *)
(** ** 1. Data ingestion *)

(** Truth value of [manual_price]: [None] and zero are false. *)
Definition truthy (manual_price : option Q) : bool :=
  match manual_price with
  | None => false
  | Some p => negb (Qeq_bool p 0)
  end.

Definition data_ingestion (ticker : Ticker) (manual_price : option Q)
  : result (Q * string) :=
  match manual_price with
  | Some p =>
      if truthy manual_price then Return (p, "MANUAL")
      else c <- iloc_last (history_Close ticker) ;;
           Return (c * multiplier, "FEED")
  | None =>
      c <- iloc_last (history_Close ticker) ;;
      Return (c * multiplier, "FEED")
  end.

(* ------------------------------------------------------------------ *)
(** ** 2. Option chain scanner *)

(** An element of [raw_points], a row of [df]. *)
Record point : Type := {
  x : Z;   (* days to expiry *)
  y : Q;   (* strike * 10.885 *)
  z : Q    (* implied volatility *)
}.

Definition DataFrame : Type := list point.

(** [mask], row by row. *)
Definition mask (spot : Q) (row : OptionRow) : bool :=
  Qgtb (strike row * multiplier) (spot * 0.85)
  && Qltb (strike row * multiplier) (spot * 1.15).

Definition raw_point (days : Z) (row : OptionRow) : point :=
  {| x := days; y := strike row * multiplier; z := impliedVolatility row |}.

(** The body of the loop over one expiration. *)
Definition scan_expiration (ticker : Ticker) (today : date) (spot : Q)
  (exp : date) : list point :=
  let days := (exp - today)%Z in
  let df_opt := filter (mask spot) (option_chain_calls ticker exp) in
  map (raw_point days) df_opt.

Definition option_chain_scanner (ticker : Ticker) (today : date) (spot : Q)
  : DataFrame :=
  flat_map (scan_expiration ticker today spot) (slice 1 5 (options ticker)).

(* ------------------------------------------------------------------ *)
(** ** DataFrame access *)

(** [df[name]]: [pd.DataFrame([])] has no column at all, so any column
    access on it raises [KeyError]. *)
Definition column {A : Type} (name : string) (proj : point -> A)
  (df : DataFrame) : result (list A) :=
  match df with
  | [] => Raise (KeyError name)
  | _ :: _ => Return (map proj df)
  end.

(** [df.empty] *)
Definition empty {A : Type} (l : list A) : bool :=
  match l with [] => true | _ :: _ => false end.

(** [df.iloc[idx]] for a list of positions. *)
Fixpoint iloc (df : DataFrame) (idx : list nat) : result DataFrame :=
  match idx with
  | [] => Return []
  | i :: idx' =>
      match nth_error df i with
      | None => Raise IndexError
      | Some p => rows <- iloc df idx' ;; Return (p :: rows)
      end
  end.

(** [s.values[0]] *)
Definition values0 (s : list Q) : result Q :=
  match s with
  | [] => Raise IndexError
  | v :: _ => Return v
  end.

(* ------------------------------------------------------------------ *)
(** ** numpy: linspace and meshgrid *)

(** [np.linspace(start, stop, num)] with the default [endpoint=True]. *)
Definition linspace (start stop : Q) (num : nat) : list Q :=
  let div := (num - 1)%nat in
  let step := (stop - start) / inject_Z (Z.of_nat div) in
  map (fun i : nat =>
         if (Nat.ltb 1 num && Nat.eqb i div)%bool then stop
         else start + inject_Z (Z.of_nat i) * step)
      (seq 0 num).

(** [np.meshgrid(tx, ty)]: one row per element of [ty]. *)
Definition meshgrid (tx ty : list Q) : list (list Q) * list (list Q) :=
  (map (fun _ => tx) ty, map (fun v => map (fun _ => v) tx) ty).

Fixpoint zip_with {A B C : Type} (f : A -> B -> C) (l : list A) (m : list B)
  : list C :=
  match l, m with
  | a :: l', b :: m' => f a b :: zip_with f l' m'
  | _, _ => []
  end.

(** The surface trace: the three 2-D arrays handed to [go.Surface]. *)
Record Grid : Type := {
  XI : list (list Q);
  YI : list (list Q);
  ZI : list (list Q)
}.

(* ------------------------------------------------------------------ *)
(** ** 5. Camera handling and the plot *)

(** A JSON value of the browser's [relayoutData], kept opaque. *)
Definition json : Type := string.

(** [key in d] and [d[key]] on a dict kept as an association list. *)
Fixpoint dict_get (key : string) (d : list (string * json)) : option json :=
  match d with
  | [] => None
  | (k, v) :: d' => if String.eqb k key then Some v else dict_get key d'
  end.

(** [camera] after step 5: the stored camera when the lock is on (an odd
    click count) and the non-empty [relayout] has the key. *)
Definition camera_handling (lock_clicks : Z)
  (relayout : option (list (string * json))) : option json :=
  if (lock_clicks mod 2 =? 1)%Z then
    match relayout with
    | None => None
    | Some d => if empty d then None else dict_get "scene.camera" d
    end
  else None.

Inductive Figure : Type :=
| go_Figure_empty                                (* go.Figure() *)
| go_Figure (surface : Grid)                     (* go.Surface(x=XI, y=YI, z=ZI) *)
            (scatter : list Z * list Q * list Q) (* go.Scatter3d(x, y, z) *)
            (camera : option json)
            (uirevision : string).

Definition COLORS_red : string := "#f85149".
Definition COLORS_green : string := "#2ea043".
Definition COLORS_gold : string := "#d29922".

(* ------------------------------------------------------------------ *)
(** ** 7. Metrics output *)

(** The four lines of the footer, before number formatting. *)
Record Metrics : Type := {
  SPOT_PRICE : Q;
  ATM_VOL : Q;
  SKEW : Q;
  REGIME : string;
  REGIME_color : string
}.

(** The label of the REGIME line. *)
Definition regime (skew : Q) : string :=
  if Qgtb skew 0.02 then "BEARISH"
  else if Qltb skew 0 then "BULLISH"
  else "NEUTRAL".

Definition regime_color (skew : Q) : string :=
  if Qgtb skew 0.04 then COLORS_red
  else if Qltb skew (-0.01) then COLORS_green
  else COLORS_gold.

(** [atm_vol] is a local that only the non-empty branch of step 4 binds:
    [None] is the unbound local, and reading it raises. *)
Definition metrics_output (spot : Q) (atm_vol : option Q) (skew : Q)
  : result Metrics :=
  let color := regime_color skew in
  atm <- match atm_vol with
         | Some v => Return v
         | None => Raise (UnboundLocalError "atm_vol")
         end ;;
  Return {| SPOT_PRICE := spot; ATM_VOL := atm; SKEW := skew;
            REGIME := regime skew; REGIME_color := color |}.

(** What the callback hands to the page: the figure and the children of
    the metrics footer. *)
Inductive children : Type :=
| metrics_lines (m : Metrics)
| DATA_ERROR (e : exn).            (* html.Div(f"DATA ERROR: {str(e)}") *)

(** [(near_term['y'] - target).abs()] *)
Definition distances (near_term : DataFrame) (target : Q) : list Q :=
  map (fun p => Qabs (y p - target)) near_term.

(* ------------------------------------------------------------------ *)
(** ** The library routines and the steps that call them *)

Section QuantCore.

(** [Series.argsort()]: the positions that sort the values. *)
Variable argsort : list Q -> list nat.

(** [Rbf(x, y, z, function='linear')]: building the interpolant may raise
    (a singular system); the result is called on coordinates. *)
Variable Rbf : list Q -> list Q -> list Q -> result (Q -> Q -> Q).

(** *** 3. RBF interpolation *)

Definition rbf_interpolation (df : DataFrame) : result Grid :=
  xs <- column "x" x df ;;
  let ti_x :=
    linspace (inject_Z (Zseries_min xs)) (inject_Z (Zseries_max xs)) 30 in
  ys <- column "y" y df ;;
  let ti_y := linspace (Qseries_min ys) (Qseries_max ys) 30 in
  let '(xi, yi) := meshgrid ti_x ti_y in
  zs <- column "z" z df ;;
  rbf <- Rbf (map inject_Z xs) ys zs ;;
  Return {| XI := xi; YI := yi;
            ZI := zip_with (zip_with rbf) xi yi |}.

(** *** 4. Regime stats *)

(** [near_term.iloc[(near_term['y'] - target).abs().argsort()[:1]]['z']] *)
Definition nearest_z (near_term : DataFrame) (target : Q) : result (list Q) :=
  let dist := distances near_term target in
  rows <- iloc near_term (firstn 1 (argsort dist)) ;;
  Return (map z rows).

(** The values of [atm_vol] (unbound in the [else] branch) and [skew]. *)
Definition regime_stats (df : DataFrame) (spot : Q)
  : result (option Q * Q) :=
  xs <- column "x" x df ;;
  let near_term := filter (fun p => (x p =? Zseries_min xs)%Z) df in
  if negb (empty near_term) then
    atm_series <- nearest_z near_term spot ;;
    atm_vol <- values0 atm_series ;;
    let otm_target := spot + 300 in
    otm_vol_series <- nearest_z near_term otm_target ;;
    otm_vol <- (if negb (empty otm_vol_series) then values0 otm_vol_series
                else Return atm_vol) ;;
    let skew := otm_vol - atm_vol in
    Return (Some atm_vol, skew)
  else
    Return (None, 0).

(** *** The core: steps 3 to 7 on the scanned frame *)

Definition quant_core (df : DataFrame) (spot : Q) (lock_clicks : Z)
  (relayout : option (list (string * json))) : result (Figure * Metrics) :=
  grid <- rbf_interpolation df ;;
  '(atm_vol, skew) <- regime_stats df spot ;;
  let camera := camera_handling lock_clicks relayout in
  let fig :=
    go_Figure grid (map x df, map y df, map z df) camera
      (if (lock_clicks mod 2 =? 1)%Z then "locked" else "unlocked") in
  metrics <- metrics_output spot atm_vol skew ;;
  Return (fig, metrics).

(** *** The callback *)

(** The body of the [try]. [n] is the click count of the update button;
    the source never reads it. *)
Definition update_surface_try (ticker : Ticker) (today : date) (n : Z)
  (manual_price : option Q) (lock_clicks : Z)
  (relayout : option (list (string * json))) : result (Figure * Metrics) :=
  '(spot, spot_source) <- data_ingestion ticker manual_price ;;
  let df := option_chain_scanner ticker today spot in
  quant_core df spot lock_clicks relayout.

(** [try: ... except Exception as e: ...] *)
Definition update_surface (ticker : Ticker) (today : date) (n : Z)
  (manual_price : option Q) (lock_clicks : Z)
  (relayout : option (list (string * json))) : Figure * children :=
  match update_surface_try ticker today n manual_price lock_clicks relayout with
  | Return (fig, metrics) => (fig, metrics_lines metrics)
  | Raise e => (go_Figure_empty, DATA_ERROR e)
  end.

End QuantCore.

(** The surface and the metrics of a response, when it has them. *)
Definition response_grid (r : Figure * children) : option Grid :=
  match fst r with
  | go_Figure_empty => None
  | go_Figure g _ _ _ => Some g
  end.

Definition response_metrics (r : Figure * children) : option Metrics :=
  match snd r with
  | metrics_lines m => Some m
  | DATA_ERROR _ => None
  end.

(* ------------------------------------------------------------------ *)
(** ** What the library routines are assumed to do *)

(** The value at position [i] of a Series. *)
Definition key (v : list Q) (i : nat) : Q := nth i v 0.

(** Sorted by value, ties in input order. *)
Definition before (v : list Q) (a b : nat) : Prop :=
  key v a <= key v b /\ (key v a == key v b -> (a < b)%nat).

(** [p] is the stable sorting permutation of the positions of [v]: numpy's
    argsort on the arrays it sorts by insertion, and any argsort of kind
    [stable]. *)
Definition stably_sorts (v : list Q) (p : list nat) : Prop :=
  Permutation p (seq 0 (length v)) /\
  forall i j a b, (i < j)%nat ->
    nth_error p i = Some a -> nth_error p j = Some b -> before v a b.

(** [p] is a sorting permutation of the positions of [v]: the values come
    in ascending order, with no promise on the order of equal values.
    This is what every kind of argsort gives, the default quicksort too. *)
Definition ascending_sorts (v : list Q) (p : list nat) : Prop :=
  Permutation p (seq 0 (length v)) /\
  forall i j a b, (i < j)%nat ->
    nth_error p i = Some a -> nth_error p j = Some b -> key v a <= key v b.

(** A stable argsort that computes: insertion of the positions, last
    position first, each new position going in front of the first one whose
    value is not smaller. *)
Fixpoint insert_index (v : list Q) (i : nat) (s : list nat) : list nat :=
  match s with
  | [] => [i]
  | b :: s' =>
      if Qle_bool (key v i) (key v b) then i :: s
      else b :: insert_index v i s'
  end.

Definition stable_argsort (v : list Q) : list nat :=
  fold_right (insert_index v) [] (seq 0 (length v)).

(** An ascending argsort that is not stable, and computes: the same
    insertion, but a new position goes behind the positions of equal
    value, so equal values come out last position first. *)
Fixpoint insert_index_behind (v : list Q) (i : nat) (s : list nat) : list nat :=
  match s with
  | [] => [i]
  | b :: s' =>
      if Qltb (key v i) (key v b) then i :: s
      else b :: insert_index_behind v i s'
  end.

Definition last_first_argsort (v : list Q) : list nat :=
  fold_right (insert_index_behind v) [] (seq 0 (length v)).

(** An interpolant that computes, for running the callback on concrete
    data: the value of the node nearest to the query (squared Euclidean
    distance, first node on ties).  It passes through the data, like the
    linear radial basis interpolant, but it is not scipy's. *)
Definition sqdist (n : Q * Q * Q) (u v : Q) : Q :=
  (fst (fst n) - u) * (fst (fst n) - u) + (snd (fst n) - v) * (snd (fst n) - v).

Definition Rbf_nearest (xs ys zs : list Q) : result (Q -> Q -> Q) :=
  match combine (combine xs ys) zs with
  | [] => Raise (LibraryError "ValueError")
  | n0 :: nodes =>
      Return (fun u v =>
        snd (fold_left
               (fun best n => if Qltb (sqdist n u v) (sqdist best u v) then n else best)
               nodes n0))
  end.

(* ------------------------------------------------------------------ *)
(** ** The statements of the specification *)

(** The near-term rows, [df[df['x'] == df['x'].min()]], of a frame. *)
Definition near_term_rows (df : DataFrame) : DataFrame :=
  filter (fun p => (x p =? Zseries_min (map x df))%Z) df.

(** [p], at position [i] of [df], is a near-term observation closest to
    [target]. *)
Definition closest (df : DataFrame) (target : Q) (i : nat) (p : point)
  : Prop :=
  nth_error df i = Some p /\
  (forall q, In q df -> (x p <= x q)%Z) /\
  (forall q, In q df -> x q = x p ->
     Qabs (y p - target) <= Qabs (y q - target)).

(** [p], at position [i] of [df], is the near-term observation closest to
    [target], the first one in input order among exact ties. *)
Definition closest_first (df : DataFrame) (target : Q) (i : nat) (p : point)
  : Prop :=
  nth_error df i = Some p /\
  (forall q, In q df -> (x p <= x q)%Z) /\
  (forall q, In q df -> x q = x p ->
     Qabs (y p - target) <= Qabs (y q - target)) /\
  (forall j q, (j < i)%nat -> nth_error df j = Some q -> x q = x p ->
     Qabs (y p - target) < Qabs (y q - target)).

(** [e] is one of the [k] nearest expirations of [opts] strictly after
    [today]: fewer than [k] distinct future expirations come before it. *)
Definition nearest_future (k : nat) (today : date) (opts : list date)
  (e : date) : Prop :=
  In e opts /\ (today < e)%Z /\
  (length (nodup Z.eq_dec
             (filter (fun e' => (today <? e')%Z && (e' <? e)%Z) opts)) < k)%nat.

(** Every observation of the scanned frame comes from one of the four
    nearest future expirations and has a non-negative [x]. *)
Definition nearest_four_expirations (ticker : Ticker) (today : date)
  (spot : Q) : Prop :=
  forall p, In p (option_chain_scanner ticker today spot) ->
    (exists e, nearest_future 4 today (options ticker) e /\
               x p = (e - today)%Z) /\
    (0 <= x p)%Z.

(** A frame with fewer than two distinct [x] or fewer than two distinct [y]. *)
Definition degenerate (df : DataFrame) : Prop :=
  (forall p q, In p df -> In q df -> x p = x q) \/
  (forall p q, In p df -> In q df -> y p == y q).

(** A 30 by 30 array. *)
Definition shape_30_30 (a : list (list Q)) : Prop :=
  length a = 30%nat /\ Forall (fun row => length row = 30%nat) a.

(** [a[i][j]] *)
Definition at2 (a : list (list Q)) (i j : nat) : Q := nth j (nth i a []) 0.

(* ------------------------------------------------------------------ *)
(** ** Comparisons *)

Lemma Qgtb_iff (a b : Q) : Qgtb a b = true <-> b < a.
Proof.
  unfold Qgtb. rewrite negb_true_iff. split; intro H.
  - apply Qnot_le_lt. intro Hle. apply Qle_bool_iff in Hle. congruence.
  - destruct (Qle_bool a b) eqn:E; [|reflexivity].
    apply Qle_bool_iff in E. exfalso. exact (Qlt_not_le _ _ H E).
Qed.

Lemma Qltb_iff (a b : Q) : Qltb a b = true <-> a < b.
Proof. exact (Qgtb_iff b a). Qed.

Lemma Qgtb_false_iff (a b : Q) : Qgtb a b = false <-> ~ b < a.
Proof.
  rewrite <- Qgtb_iff. destruct (Qgtb a b); split; intro H;
    try reflexivity; try discriminate; try (intro; discriminate).
  exfalso. apply H. reflexivity.
Qed.

Lemma Qltb_false_iff (a b : Q) : Qltb a b = false <-> ~ a < b.
Proof. exact (Qgtb_false_iff b a). Qed.

Lemma iloc_last_snoc (l : list Q) (c : Q) : iloc_last (l ++ [c]) = Return c.
Proof. unfold iloc_last. rewrite rev_app_distr. reflexivity. Qed.

(* ------------------------------------------------------------------ *)
(** ** Data ingestion *)

(** C10. A manual spot price that is not zero is the spot as it stands,
    with source MANUAL and without the 10.885 multiplier; with no manual
    price, or a manual price of zero, the spot is the last close of the
    feed times 10.885, with source FEED. *)
Theorem manual_spot_override (ticker : Ticker) (manual_price : option Q) :
  (forall p, manual_price = Some p -> ~ p == 0 ->
     data_ingestion ticker manual_price = Return (p, "MANUAL")) /\
  (forall closes c,
     manual_price = None \/ (exists p, manual_price = Some p /\ p == 0) ->
     history_Close ticker = closes ++ [c] ->
     data_ingestion ticker manual_price = Return (c * 10.885, "FEED")).
Proof.
  split.
  - intros p -> Hp. unfold data_ingestion, truthy.
    destruct (Qeq_bool p 0) eqn:E; [|reflexivity].
    apply Qeq_bool_iff in E. contradiction.
  - intros closes c Hm Hc. unfold data_ingestion, truthy. rewrite Hc.
    destruct Hm as [-> | [p [-> Hp]]].
    + rewrite iloc_last_snoc. reflexivity.
    + apply Qeq_bool_iff in Hp. rewrite Hp. simpl.
      rewrite iloc_last_snoc. reflexivity.
Qed.

(* ------------------------------------------------------------------ *)
(** ** The regime label *)

Lemma regime_cases (skew : Q) :
  (0.02 < skew /\ regime skew = "BEARISH") \/
  (~ 0.02 < skew /\ skew < 0 /\ regime skew = "BULLISH") \/
  (~ 0.02 < skew /\ ~ skew < 0 /\ regime skew = "NEUTRAL").
Proof.
  unfold regime.
  destruct (Qgtb skew 0.02) eqn:E1.
  - left. apply Qgtb_iff in E1. auto.
  - apply Qgtb_false_iff in E1. right.
    destruct (Qltb skew 0) eqn:E2.
    + apply Qltb_iff in E2. left. auto.
    + apply Qltb_false_iff in E2. right. auto.
Qed.


(* ------------------------------------------------------------------ *)
(** ** The option chain scanner *)

Lemma mask_iff (spot : Q) (row : OptionRow) :
  mask spot row = true <->
  spot * 0.85 < strike row * multiplier /\ strike row * multiplier < spot * 1.15.
Proof.
  unfold mask. rewrite andb_true_iff, Qgtb_iff, Qltb_iff. reflexivity.
Qed.

Lemma scanner_In (ticker : Ticker) (today : date) (spot : Q) (p : point) :
  In p (option_chain_scanner ticker today spot) <->
  exists exp row,
    In exp (slice 1 5 (options ticker)) /\
    In row (option_chain_calls ticker exp) /\
    mask spot row = true /\
    p = raw_point (exp - today) row.
Proof.
  unfold option_chain_scanner, scan_expiration. rewrite in_flat_map. split.
  - intros [exp [Hexp Hp]]. apply in_map_iff in Hp.
    destruct Hp as [row [Hrow Hin]]. apply filter_In in Hin.
    exists exp, row. intuition auto.
  - intros [exp [row [Hexp [Hrow [Hm ->]]]]]. exists exp. split; [assumption|].
    apply in_map. apply filter_In. auto.
Qed.

Lemma slice_1_5_In {A : Type} (l : list A) (e : A) :
  In e (slice 1 5 l) <->
  exists i, (1 <= i <= 4)%nat /\ nth_error l i = Some e.
Proof.
  unfold slice. split.
  - intro H. apply In_nth_error in H. destruct H as [k Hk].
    rewrite nth_error_firstn in Hk.
    destruct (Nat.ltb k (5 - 1)) eqn:E; [|discriminate].
    apply Nat.ltb_lt in E. rewrite nth_error_skipn in Hk.
    exists (1 + k)%nat. split; [lia | assumption].
  - intros [i [Hi He]]. apply nth_error_In with (n := (i - 1)%nat).
    rewrite nth_error_firstn.
    replace (Nat.ltb (i - 1) (5 - 1)) with true
      by (symmetry; apply Nat.ltb_lt; lia).
    rewrite nth_error_skipn. replace (1 + (i - 1))%nat with i by lia.
    assumption.
Qed.

Lemma length_flat_map {A B : Type} (f : A -> list B) (l : list A) :
  length (flat_map f l) = list_sum (map (fun a => length (f a)) l).
Proof.
  induction l as [| a l IH]; simpl; [reflexivity |].
  rewrite length_app, IH. reflexivity.
Qed.

(** C4. A chain row passes the mask exactly when its scaled strike
    y = strike * 10.885 lies strictly between spot * 0.85 and spot * 1.15;
    the observation of a row of a scanned expiration is in the rows kept
    for that expiration exactly then, and it is in the produced frame
    exactly then; every observation of the frame is strictly inside the
    band; a row whose y equals spot * 0.85 or spot * 1.15 is left out; and
    the frame has one observation for each in-band row of the scanned
    chains. *)
Theorem band_filter (ticker : Ticker) (today : date) (spot : Q) :
  (forall row,
     mask spot row = true <->
     spot * 0.85 < strike row * 10.885 /\ strike row * 10.885 < spot * 1.15) /\
  (forall exp row,
     In exp (slice 1 5 (options ticker)) ->
     In row (option_chain_calls ticker exp) ->
     (In (raw_point (exp - today) row) (scan_expiration ticker today spot exp) <->
      spot * 0.85 < strike row * 10.885 /\ strike row * 10.885 < spot * 1.15)) /\
  (forall p, In p (option_chain_scanner ticker today spot) ->
     spot * 0.85 < y p /\ y p < spot * 1.15) /\
  (forall row,
     strike row * 10.885 == spot * 0.85 \/ strike row * 10.885 == spot * 1.15 ->
     mask spot row = false) /\
  (forall exp row,
     In exp (slice 1 5 (options ticker)) ->
     In row (option_chain_calls ticker exp) ->
     (In (raw_point (exp - today) row) (option_chain_scanner ticker today spot) <->
      spot * 0.85 < strike row * 10.885 /\ strike row * 10.885 < spot * 1.15)) /\
  length (option_chain_scanner ticker today spot)
  = list_sum
      (map (fun exp =>
              length (filter (mask spot) (option_chain_calls ticker exp)))
         (slice 1 5 (options ticker))).
Proof.
  change 10.885 with multiplier.
  split; [exact (mask_iff spot) |]. split; [| split; [| split; [| split]]].
  - intros exp row Hexp Hrow. rewrite <- mask_iff.
    unfold scan_expiration. split.
    + intro H. apply in_map_iff in H. destruct H as [row' [Heq Hin]].
      apply filter_In in Hin. destruct Hin as [_ Hm].
      assert (Hy : strike row' * multiplier = strike row * multiplier)
        by exact (f_equal y Heq).
      unfold mask in *. rewrite <- Hy. exact Hm.
    + intro Hm. apply in_map. apply filter_In. auto.
  - intros p Hp. apply scanner_In in Hp.
    destruct Hp as [exp [row [_ [_ [Hm ->]]]]]. apply mask_iff in Hm. exact Hm.
  - intros row Hb. destruct (mask spot row) eqn:E; [|reflexivity].
    apply mask_iff in E. destruct E as [E1 E2]. exfalso.
    destruct Hb as [Hb | Hb]; rewrite Hb in *;
      [exact (Qlt_irrefl _ E1) | exact (Qlt_irrefl _ E2)].
  - intros exp row Hexp Hrow. rewrite <- mask_iff. split.
    + intro H. apply scanner_In in H.
      destruct H as [exp' [row' [_ [_ [Hm Heq]]]]].
      assert (Hy : strike row * multiplier = strike row' * multiplier)
        by exact (f_equal y Heq).
      unfold mask in *. rewrite Hy. exact Hm.
    + intro Hm. apply scanner_In. exists exp, row. auto.
  - unfold option_chain_scanner. rewrite length_flat_map.
    f_equal. apply map_ext. intro exp. unfold scan_expiration.
    apply length_map.
Qed.

(** A chain with a single at-the-money strike, and a feed that lists six
    expirations, one to six days ahead of day 738000. *)
Definition sample_row : OptionRow :=
  {| strike := 9.2; impliedVolatility := 0.2 |}.

Definition six_expirations : Ticker :=
  {| history_Close := [9.2];
     options := [738001; 738002; 738003; 738004; 738005; 738006]%Z;
     option_chain_calls := fun _ => [sample_row] |}.

Lemma six_expirations_fifth :
  In (raw_point 5 sample_row) (option_chain_scanner six_expirations 738000%Z 100).
Proof.
  apply scanner_In. exists 738005%Z, sample_row.
  split; [| split; [| split]].
  - simpl. tauto.
  - simpl. tauto.
  - reflexivity.
  - reflexivity.
Qed.

(** C5, as stated, fails: with six listed expirations the frame holds an
    observation of the fifth one, five days ahead, which is not among the
    four nearest future expirations. *)
Lemma fifth_expiration_scanned :
  ~ nearest_four_expirations six_expirations 738000%Z 100.
Proof.
  intro H. destruct (H _ six_expirations_fifth) as [[e [[_ [_ Hlen]] Hx]] _].
  simpl in Hx. assert (e = 738005%Z) by lia. subst e.
  vm_compute in Hlen. lia.
Qed.

(** C5, amended. Every observation of the frame has for x the days from
    today to an expiration listed at one of the positions 1 to 4 of the
    feed's expiration list (the slice [1:5]: the first listed expiration is
    skipped); when the expirations at these positions are not before
    today, x is not negative. *)
Theorem scanned_expirations (ticker : Ticker) (today : date) (spot : Q)
  (p : point) :
  In p (option_chain_scanner ticker today spot) ->
  (exists i e, (1 <= i <= 4)%nat /\
               nth_error (options ticker) i = Some e /\
               x p = (e - today)%Z) /\
  ((forall i e, (1 <= i <= 4)%nat ->
                nth_error (options ticker) i = Some e -> (today <= e)%Z) ->
   (0 <= x p)%Z).
Proof.
  intro Hp. apply scanner_In in Hp.
  destruct Hp as [exp [row [Hexp [_ [_ ->]]]]].
  apply slice_1_5_In in Hexp. destruct Hexp as [i [Hi He]]. split.
  - exists i, exp. auto.
  - intro Hfut. specialize (Hfut i exp Hi He). simpl. lia.
Qed.

Lemma scanned_expirations_witness :
  (exists i e, (1 <= i <= 4)%nat /\
               nth_error (options six_expirations) i = Some e /\
               x (raw_point 5 sample_row) = (e - 738000)%Z) /\
  ((forall i e, (1 <= i <= 4)%nat ->
                nth_error (options six_expirations) i = Some e ->
                (738000 <= e)%Z) ->
   (0 <= x (raw_point 5 sample_row))%Z).
Proof.
  exact (scanned_expirations six_expirations 738000%Z 100
           (raw_point 5 sample_row) six_expirations_fifth).
Defined.

(* ------------------------------------------------------------------ *)
(** ** Minimum and maximum of a Series *)

Section FoldSelect.

Context {A : Type} (op : A -> A -> A) (le : A -> A -> Prop).
Hypothesis op_selects : forall a b, op a b = a \/ op a b = b.
Hypothesis op_le_l : forall a b, le (op a b) a.
Hypothesis op_le_r : forall a b, le (op a b) b.
Hypothesis le_refl : forall a, le a a.
Hypothesis le_trans : forall a b c, le a b -> le b c -> le a c.

Lemma fold_left_select (r : list A) :
  forall a,
    In (fold_left op r a) (a :: r) /\
    forall b, In b (a :: r) -> le (fold_left op r a) b.
Proof.
  induction r as [| c r IH]; intro a; simpl.
  - split; [left; reflexivity |]. intros b [<- | []]. apply le_refl.
  - destruct (IH (op a c)) as [Hin Hle]. split.
    + destruct Hin as [Heq | Hin].
      * rewrite <- Heq.
        destruct (op_selects a c) as [E | E]; rewrite E; auto.
      * auto.
    + intros b [<- | [<- | Hb]].
      * eapply le_trans; [apply Hle; left; reflexivity | apply op_le_l].
      * eapply le_trans; [apply Hle; left; reflexivity | apply op_le_r].
      * apply Hle. right. assumption.
Qed.

End FoldSelect.

Lemma Zseries_min_spec (s : list Z) :
  s <> [] ->
  In (Zseries_min s) s /\ forall a, In a s -> (Zseries_min s <= a)%Z.
Proof.
  destruct s as [| a r]; [congruence | intros _].
  apply (fold_left_select Z.min Z.le); intros; try lia.
Qed.

Lemma Zseries_max_spec (s : list Z) :
  s <> [] ->
  In (Zseries_max s) s /\ forall a, In a s -> (a <= Zseries_max s)%Z.
Proof.
  destruct s as [| a r]; [congruence | intros _].
  apply (fold_left_select Z.max (fun u v => (v <= u)%Z)); intros; try lia.
Qed.

Lemma Qmin2_cases (a b : Q) :
  (Qmin2 a b = a /\ a <= b) \/ (Qmin2 a b = b /\ b <= a).
Proof.
  unfold Qmin2. destruct (Qle_bool a b) eqn:E.
  - left. split; [reflexivity | apply Qle_bool_iff; assumption].
  - right. split; [reflexivity |]. apply Qlt_le_weak, Qnot_le_lt.
    intro H. apply Qle_bool_iff in H. congruence.
Qed.

Lemma Qmax2_cases (a b : Q) :
  (Qmax2 a b = b /\ a <= b) \/ (Qmax2 a b = a /\ b <= a).
Proof.
  unfold Qmax2. destruct (Qle_bool a b) eqn:E.
  - left. split; [reflexivity | apply Qle_bool_iff; assumption].
  - right. split; [reflexivity |]. apply Qlt_le_weak, Qnot_le_lt.
    intro H. apply Qle_bool_iff in H. congruence.
Qed.

Lemma Qseries_min_spec (s : list Q) :
  s <> [] ->
  In (Qseries_min s) s /\ forall a, In a s -> Qseries_min s <= a.
Proof.
  destruct s as [| a r]; [congruence | intros _].
  apply (fold_left_select Qmin2 Qle).
  - intros u v. destruct (Qmin2_cases u v) as [[E _] | [E _]]; auto.
  - intros u v. destruct (Qmin2_cases u v) as [[E H] | [E H]]; rewrite E;
      [apply Qle_refl | assumption].
  - intros u v. destruct (Qmin2_cases u v) as [[E H] | [E H]]; rewrite E;
      [assumption | apply Qle_refl].
  - apply Qle_refl.
  - intros u v w. apply Qle_trans.
Qed.

Lemma Qseries_max_spec (s : list Q) :
  s <> [] ->
  In (Qseries_max s) s /\ forall a, In a s -> a <= Qseries_max s.
Proof.
  destruct s as [| a r]; [congruence | intros _].
  apply (fold_left_select Qmax2 (fun u v => v <= u)).
  - intros u v. destruct (Qmax2_cases u v) as [[E _] | [E _]]; auto.
  - intros u v. destruct (Qmax2_cases u v) as [[E H] | [E H]]; rewrite E;
      [assumption | apply Qle_refl].
  - intros u v. destruct (Qmax2_cases u v) as [[E H] | [E H]]; rewrite E;
      [apply Qle_refl | assumption].
  - apply Qle_refl.
  - intros u v w H1 H2. eapply Qle_trans; eassumption.
Qed.

(* ------------------------------------------------------------------ *)
(** ** Positions in a filtered frame *)

Lemma filter_nth_error {A : Type} (f : A -> bool) (l : list A) :
  forall k p,
    nth_error (filter f l) k = Some p ->
    exists i,
      nth_error l i = Some p /\ f p = true /\
      forall j q, (j < i)%nat -> nth_error l j = Some q -> f q = true ->
        exists k', (k' < k)%nat /\ nth_error (filter f l) k' = Some q.
Proof.
  induction l as [| a l IH]; intros k p Hk; simpl in Hk.
  - destruct k; discriminate.
  - destruct (f a) eqn:Ea.
    + destruct k as [| k].
      * simpl in Hk. inversion Hk. subst a. exists 0%nat.
        split; [reflexivity |]. split; [assumption |]. intros; lia.
      * simpl in Hk. destruct (IH _ _ Hk) as [i [Hi [Hf Hbefore]]].
        exists (S i). split; [assumption |]. split; [assumption |].
        intros [| j] q Hj Hq Hfq; simpl; rewrite Ea.
        -- simpl in Hq. inversion Hq. subst q. exists 0%nat.
           split; [lia | reflexivity].
        -- simpl in Hq.
           destruct (Hbefore j q ltac:(lia) Hq Hfq) as [k' [Hk' Hq']].
           exists (S k'). split; [lia | assumption].
    + destruct (IH _ _ Hk) as [i [Hi [Hf Hbefore]]].
      exists (S i). split; [assumption |]. split; [assumption |].
      intros [| j] q Hj Hq Hfq; simpl; rewrite Ea.
      * simpl in Hq. inversion Hq. subst q. congruence.
      * simpl in Hq. apply (Hbefore j q); [lia | assumption | assumption].
Qed.

(* ------------------------------------------------------------------ *)
(** ** The first position of a stable argsort *)

Lemma key_map {A : Type} (f : A -> Q) (l : list A) (k : nat) (q : A) :
  nth_error l k = Some q -> key (map f l) k = f q.
Proof.
  intro H. unfold key. apply nth_error_nth.
  rewrite nth_error_map, H. reflexivity.
Qed.

Lemma stably_sorts_head (v : list Q) (p : list nat) :
  v <> [] -> stably_sorts v p ->
  exists a rest,
    p = a :: rest /\ (a < length v)%nat /\
    (forall k, (k < length v)%nat -> key v a <= key v k) /\
    (forall k, (k < a)%nat -> key v a < key v k).
Proof.
  intros Hv [Hperm Hsorted].
  destruct p as [| a rest].
  - apply Permutation_length in Hperm. rewrite length_seq in Hperm.
    destruct v; [congruence | discriminate].
  - assert (Ha : (a < length v)%nat).
    { assert (H : In a (seq 0 (length v)))
        by (eapply Permutation_in; [exact Hperm | left; reflexivity]).
      apply in_seq in H. lia. }
    assert (Hk : forall k, (k < length v)%nat -> k = a \/ before v a k).
    { intros k Hlt.
      assert (H : In k (a :: rest)).
      { eapply Permutation_in; [apply Permutation_sym; exact Hperm |].
        apply in_seq. lia. }
      apply In_nth_error in H. destruct H as [[| j] Hj].
      - simpl in Hj. inversion Hj. auto.
      - right. apply (Hsorted 0%nat (S j)); [lia | reflexivity | assumption]. }
    exists a, rest. split; [reflexivity |]. split; [assumption |]. split.
    + intros k Hlt. destruct (Hk k Hlt) as [-> | [H _]];
        [apply Qle_refl | assumption].
    + intros k Hlt. destruct (Hk k ltac:(lia)) as [-> | [Hle Htie]]; [lia |].
      destruct (Qle_lt_or_eq _ _ Hle) as [H | H]; [assumption |].
      specialize (Htie H). lia.
Qed.

(* ------------------------------------------------------------------ *)
(** ** Regime stats *)

Section RegimeStats.

Variable argsort : list Q -> list nat.

Lemma nearest_z_spec (near_term : DataFrame) (target : Q) :
  near_term <> [] ->
  stably_sorts (distances near_term target)
    (argsort (distances near_term target)) ->
  exists a p,
    nth_error near_term a = Some p /\
    nearest_z argsort near_term target = Return [z p] /\
    (forall k q, nth_error near_term k = Some q ->
       Qabs (y p - target) <= Qabs (y q - target)) /\
    (forall k q, (k < a)%nat -> nth_error near_term k = Some q ->
       Qabs (y p - target) < Qabs (y q - target)).
Proof.
  intros Hne Hstable. unfold nearest_z.
  set (dist := distances near_term target) in *.
  assert (Hd : dist <> []) by (destruct near_term; [congruence | discriminate]).
  destruct (stably_sorts_head dist (argsort dist) Hd Hstable)
    as [a [rest [Hp [Ha [Hmin Hfirst]]]]].
  unfold dist, distances in Ha. rewrite length_map in Ha.
  destruct (nth_error near_term a) as [p |] eqn:Hnth;
    [| apply nth_error_None in Hnth; lia].
  assert (Hkp : key dist a = Qabs (y p - target))
    by (apply key_map with (f := fun p => Qabs (y p - target)); assumption).
  exists a, p. split; [exact Hnth |]. split; [| split].
  - rewrite Hp. simpl. rewrite Hnth. reflexivity.
  - intros k q Hq. rewrite <- Hkp.
    rewrite <- (key_map (fun p => Qabs (y p - target)) near_term k q Hq).
    apply Hmin. unfold dist, distances. rewrite length_map.
    apply nth_error_Some. congruence.
  - intros k q Hlt Hq. rewrite <- Hkp.
    rewrite <- (key_map (fun p => Qabs (y p - target)) near_term k q Hq).
    apply Hfirst. assumption.
Qed.

Lemma near_term_closest (df : DataFrame) (target : Q) :
  df <> [] ->
  stably_sorts (distances (near_term_rows df) target)
    (argsort (distances (near_term_rows df) target)) ->
  near_term_rows df <> [] /\
  exists i p,
    closest_first df target i p /\
    nearest_z argsort (near_term_rows df) target = Return [z p].
Proof.
  intros Hdf Hstable.
  assert (Hxs : map x df <> []) by (destruct df; [congruence | discriminate]).
  destruct (Zseries_min_spec (map x df) Hxs) as [Hin Hmin].
  assert (Hne : near_term_rows df <> []).
  { apply in_map_iff in Hin. destruct Hin as [p0 [Hx0 Hp0]].
    assert (H : In p0 (near_term_rows df))
      by (apply filter_In; split; [assumption | apply Z.eqb_eq; assumption]).
    intro E. rewrite E in H. exact H. }
  split; [assumption |].
  destruct (nearest_z_spec (near_term_rows df) target Hne Hstable)
    as [a [p [Ha [Hz [Hclosest Hfirst]]]]].
  destruct (filter_nth_error _ df a p Ha) as [i [Hi [Hfp Hbefore]]].
  apply Z.eqb_eq in Hfp.
  exists i, p. split; [| assumption].
  split; [assumption |]. split; [| split].
  - intros q Hq. rewrite Hfp. apply Hmin. apply in_map. assumption.
  - intros q Hq Hx.
    assert (H : In q (near_term_rows df))
      by (apply filter_In; split; [assumption | apply Z.eqb_eq; congruence]).
    apply In_nth_error in H. destruct H as [k Hk].
    exact (Hclosest k q Hk).
  - intros j q Hj Hq Hx.
    destruct (Hbefore j q Hj Hq) as [k' [Hk' Hq']];
      [apply Z.eqb_eq; congruence |].
    exact (Hfirst k' q Hk' Hq').
Qed.

End RegimeStats.

(* ------------------------------------------------------------------ *)
(** ** The insertion argsort is a stable argsort *)

Lemma insert_index_perm (v : list Q) (i : nat) (s : list nat) :
  Permutation (insert_index v i s) (i :: s).
Proof.
  induction s as [| b s IH]; simpl.
  - apply Permutation_refl.
  - destruct (Qle_bool (key v i) (key v b)).
    + apply Permutation_refl.
    + eapply perm_trans; [apply perm_skip; exact IH | apply perm_swap].
Qed.

Lemma insert_index_sorted (v : list Q) (i : nat) (s : list nat) :
  StronglySorted (before v) s ->
  Forall (fun b => (i < b)%nat) s ->
  StronglySorted (before v) (insert_index v i s).
Proof.
  induction s as [| b s IH]; intros Hs Hi; simpl.
  - constructor; constructor.
  - inversion Hs as [| ? ? Hs' Hb]; subst.
    inversion Hi as [| ? ? Hib Hi']; subst.
    destruct (Qle_bool (key v i) (key v b)) eqn:E.
    + apply Qle_bool_iff in E. constructor; [assumption |].
      constructor.
      * split; [assumption | intros _; assumption].
      * rewrite Forall_forall in *. intros c Hc. split.
        -- eapply Qle_trans; [exact E | apply (Hb c Hc)].
        -- intros _. apply Hi'. assumption.
    + assert (Hlt : key v b < key v i).
      { apply Qnot_le_lt. intro H. apply Qle_bool_iff in H. congruence. }
      constructor; [apply IH; assumption |].
      rewrite Forall_forall in *. intros c Hc.
      apply (Permutation_in _ (insert_index_perm v i s)) in Hc.
      destruct Hc as [<- | Hc]; [| apply Hb; assumption].
      split; [apply Qlt_le_weak; assumption |].
      intro Heq. exfalso. rewrite Heq in Hlt. exact (Qlt_irrefl _ Hlt).
Qed.

Lemma insertion_argsort_from (v : list Q) (n : nat) :
  forall s0,
    Permutation (fold_right (insert_index v) [] (seq s0 n)) (seq s0 n) /\
    StronglySorted (before v) (fold_right (insert_index v) [] (seq s0 n)).
Proof.
  induction n as [| n IH]; intro s0; simpl.
  - split; constructor.
  - destruct (IH (S s0)) as [Hperm Hsorted]. split.
    + eapply perm_trans; [apply insert_index_perm | apply perm_skip; exact Hperm].
    + apply insert_index_sorted; [assumption |].
      apply Forall_forall. intros b Hb.
      apply (Permutation_in _ Hperm) in Hb. apply in_seq in Hb. lia.
Qed.

Lemma StronglySorted_nth_error {A : Type} (R : A -> A -> Prop) (l : list A) :
  StronglySorted R l ->
  forall i j a b, (i < j)%nat ->
    nth_error l i = Some a -> nth_error l j = Some b -> R a b.
Proof.
  induction 1 as [| c l Hl IH Hc]; intros i j a b Hij Ha Hb.
  - destruct i; discriminate.
  - destruct j as [| j]; [lia |]. simpl in Hb. destruct i as [| i].
    + simpl in Ha. inversion Ha. subst c.
      rewrite Forall_forall in Hc. apply Hc.
      eapply nth_error_In. exact Hb.
    + simpl in Ha. apply (IH i j); [lia | assumption | assumption].
Qed.

Lemma stable_argsort_stable (v : list Q) : stably_sorts v (stable_argsort v).
Proof.
  destruct (insertion_argsort_from v (length v) 0%nat) as [Hperm Hsorted].
  split; [exact Hperm |].
  exact (StronglySorted_nth_error _ _ Hsorted).
Qed.

(** The scenario of the specification: two expirations, two strikes. *)
Definition scenario : DataFrame :=
  [ {| x := 1; y := 100; z := 0.20 |}; {| x := 1; y := 103; z := 0.22 |};
    {| x := 7; y := 100; z := 0.19 |}; {| x := 7; y := 103; z := 0.21 |} ].

Example scenario_neutral :
  regime_stats stable_argsort scenario 100 = Return (Some 0.20, 0.22 - 0.20) /\
  regime (0.22 - 0.20) = "NEUTRAL".
Proof. split; reflexivity. Qed.

Example scenario_bearish :
  regime_stats stable_argsort
    [ {| x := 1; y := 100; z := 0.20 |}; {| x := 1; y := 103; z := 0.30 |};
      {| x := 7; y := 100; z := 0.19 |}; {| x := 7; y := 103; z := 0.21 |} ] 100
  = Return (Some 0.20, 0.30 - 0.20) /\
  regime (0.30 - 0.20) = "BEARISH".
Proof. split; reflexivity. Qed.

(** On an exact tie the first observation in input order is taken. *)
Example tie_takes_first :
  regime_stats stable_argsort
    [ {| x := 1; y := 101; z := 0.25 |}; {| x := 1; y := 99; z := 0.20 |} ] 100
  = Return (Some 0.25, 0.25 - 0.25).
Proof. reflexivity. Qed.

(* ------------------------------------------------------------------ *)
(** ** The pick of an argsort that is only ascending *)

Lemma stably_sorts_ascending (v : list Q) (p : list nat) :
  stably_sorts v p -> ascending_sorts v p.
Proof.
  intros [Hperm Hsorted]. split; [exact Hperm |].
  intros i j a b Hij Ha Hb. exact (proj1 (Hsorted i j a b Hij Ha Hb)).
Qed.

Lemma ascending_sorts_head (v : list Q) (p : list nat) :
  v <> [] -> ascending_sorts v p ->
  exists a rest,
    p = a :: rest /\ (a < length v)%nat /\
    (forall k, (k < length v)%nat -> key v a <= key v k).
Proof.
  intros Hv [Hperm Hsorted].
  destruct p as [| a rest].
  - apply Permutation_length in Hperm. rewrite length_seq in Hperm.
    destruct v; [congruence | discriminate].
  - exists a, rest. split; [reflexivity |]. split.
    + assert (H : In a (seq 0 (length v)))
        by (eapply Permutation_in; [exact Hperm | left; reflexivity]).
      apply in_seq in H. lia.
    + intros k Hlt.
      assert (H : In k (a :: rest)).
      { eapply Permutation_in; [apply Permutation_sym; exact Hperm |].
        apply in_seq. lia. }
      apply In_nth_error in H. destruct H as [[| j] Hj].
      * simpl in Hj. inversion Hj. apply Qle_refl.
      * apply (Hsorted 0%nat (S j)); [lia | reflexivity | assumption].
Qed.

Section Pick.

Variable argsort : list Q -> list nat.

(** The row that step 4 takes for a target: the near-term row at the
    first position argsort returns.  It is a closest one; it is the first
    closest one in input order when the sort is stable. *)
Lemma near_term_pick (df : DataFrame) (target : Q) :
  df <> [] ->
  ascending_sorts (distances (near_term_rows df) target)
    (argsort (distances (near_term_rows df) target)) ->
  exists i p,
    closest df target i p /\
    nearest_z argsort (near_term_rows df) target = Return [z p] /\
    (exists a rest,
       argsort (distances (near_term_rows df) target) = a :: rest /\
       nth_error (near_term_rows df) a = Some p) /\
    (stably_sorts (distances (near_term_rows df) target)
       (argsort (distances (near_term_rows df) target)) ->
     closest_first df target i p).
Proof.
  intros Hdf Hasc.
  assert (Hxs : map x df <> []) by (destruct df; [congruence | discriminate]).
  destruct (Zseries_min_spec (map x df) Hxs) as [Hin Hmin].
  assert (Hne : near_term_rows df <> []).
  { apply in_map_iff in Hin. destruct Hin as [p0 [Hx0 Hp0]].
    assert (H : In p0 (near_term_rows df))
      by (apply filter_In; split; [assumption | apply Z.eqb_eq; assumption]).
    intro E. rewrite E in H. exact H. }
  set (near := near_term_rows df) in *.
  set (dist := distances near target) in *.
  assert (Hd : dist <> []) by (destruct near; [congruence | discriminate]).
  destruct (ascending_sorts_head dist (argsort dist) Hd Hasc)
    as [a [rest [Hp [Ha Hleast]]]].
  unfold dist, distances in Ha. rewrite length_map in Ha.
  destruct (nth_error near a) as [p |] eqn:Hnth;
    [| apply nth_error_None in Hnth; lia].
  assert (Hkey : forall k q, nth_error near k = Some q ->
            key dist k = Qabs (y q - target)).
  { intros k q Hq.
    apply key_map with (f := fun p => Qabs (y p - target)). exact Hq. }
  destruct (filter_nth_error _ df a p Hnth) as [i [Hi [Hfp Hbefore]]].
  apply Z.eqb_eq in Hfp.
  assert (Hclosest : closest df target i p).
  { split; [exact Hi |]. split.
    - intros q Hq. rewrite Hfp. apply Hmin. apply in_map. assumption.
    - intros q Hq Hx.
      assert (H : In q near)
        by (apply filter_In; split; [assumption | apply Z.eqb_eq; congruence]).
      apply In_nth_error in H. destruct H as [k Hk].
      rewrite <- (Hkey a p Hnth), <- (Hkey k q Hk).
      apply Hleast. unfold dist, distances. rewrite length_map.
      apply nth_error_Some. congruence. }
  exists i, p. split; [exact Hclosest |]. split; [| split].
  - unfold nearest_z. fold dist. rewrite Hp. simpl. rewrite Hnth. reflexivity.
  - exists a, rest. auto.
  - intro Hstable.
    destruct (stably_sorts_head dist (argsort dist) Hd Hstable)
      as [a' [rest' [Hp' [_ [_ Hfirst]]]]].
    rewrite Hp in Hp'. inversion Hp'. subst a' rest'.
    destruct Hclosest as [H1 [H2 H3]].
    split; [exact H1 |]. split; [exact H2 |]. split; [exact H3 |].
    intros j q Hj Hq Hx.
    destruct (Hbefore j q Hj Hq) as [k' [Hk' Hq']];
      [apply Z.eqb_eq; congruence |].
    rewrite <- (Hkey a p Hnth), <- (Hkey k' q Hq').
    apply Hfirst. exact Hk'.
Qed.

(** C2, amended. On a non-empty frame, when argsort returns an ascending
    sorting permutation of the two Series of distances of the near-term
    rows (to spot and to spot + 300), step 4 returns: atm_vol is the z of
    an observation at the minimum x whose y is closest in absolute
    difference to spot, otm_vol is picked the same way against spot + 300,
    and skew is otm_vol - atm_vol.  Among exact ties the observation taken
    is the near-term row at the first position argsort returns; it is the
    first one in input order where argsort is stable on that Series. *)
Theorem regime_stats_picks_closest (df : DataFrame) (spot : Q) :
  df <> [] ->
  ascending_sorts (distances (near_term_rows df) spot)
    (argsort (distances (near_term_rows df) spot)) ->
  ascending_sorts (distances (near_term_rows df) (spot + 300))
    (argsort (distances (near_term_rows df) (spot + 300))) ->
  exists i_atm p_atm i_otm p_otm,
    closest df spot i_atm p_atm /\
    closest df (spot + 300) i_otm p_otm /\
    regime_stats argsort df spot = Return (Some (z p_atm), z p_otm - z p_atm) /\
    (exists a rest,
       argsort (distances (near_term_rows df) spot) = a :: rest /\
       nth_error (near_term_rows df) a = Some p_atm) /\
    (exists a rest,
       argsort (distances (near_term_rows df) (spot + 300)) = a :: rest /\
       nth_error (near_term_rows df) a = Some p_otm) /\
    (stably_sorts (distances (near_term_rows df) spot)
       (argsort (distances (near_term_rows df) spot)) ->
     closest_first df spot i_atm p_atm) /\
    (stably_sorts (distances (near_term_rows df) (spot + 300))
       (argsort (distances (near_term_rows df) (spot + 300))) ->
     closest_first df (spot + 300) i_otm p_otm).
Proof.
  intros Hdf Hatm Hotm.
  destruct (near_term_pick df spot Hdf Hatm) as [ia [pa [Ca [Za [Pa Sa]]]]].
  destruct (near_term_pick df (spot + 300) Hdf Hotm)
    as [io [po [Co [Zo [Po So]]]]].
  exists ia, pa, io, po.
  split; [exact Ca |]. split; [exact Co |].
  split; [| split; [exact Pa | split; [exact Po | split; assumption]]].
  unfold regime_stats.
  destruct df as [| p0 df']; [congruence |].
  unfold column, bind at 1.
  change (filter (fun p => (x p =? Zseries_min (map x (p0 :: df')))%Z)
            (p0 :: df'))
    with (near_term_rows (p0 :: df')).
  destruct Pa as [a [rest [_ Hnth]]].
  destruct (near_term_rows (p0 :: df')) as [| q near'] eqn:E;
    [destruct a; discriminate |].
  simpl negb. cbv iota. rewrite Za. simpl. rewrite Zo. reflexivity.
Qed.

End Pick.

(* ------------------------------------------------------------------ *)
(** ** An ascending argsort that is not stable *)

Lemma insert_index_behind_perm (v : list Q) (i : nat) (s : list nat) :
  Permutation (insert_index_behind v i s) (i :: s).
Proof.
  induction s as [| b s IH]; simpl.
  - apply Permutation_refl.
  - destruct (Qltb (key v i) (key v b)).
    + apply Permutation_refl.
    + eapply perm_trans; [apply perm_skip; exact IH | apply perm_swap].
Qed.

Lemma insert_index_behind_sorted (v : list Q) (i : nat) (s : list nat) :
  StronglySorted (fun a b => key v a <= key v b) s ->
  StronglySorted (fun a b => key v a <= key v b) (insert_index_behind v i s).
Proof.
  induction s as [| b s IH]; intro Hs; simpl.
  - constructor; constructor.
  - inversion Hs as [| ? ? Hs' Hb]; subst.
    destruct (Qltb (key v i) (key v b)) eqn:E.
    + apply Qltb_iff in E. constructor; [assumption |].
      constructor; [apply Qlt_le_weak; assumption |].
      rewrite Forall_forall in *. intros c Hc.
      eapply Qle_trans; [apply Qlt_le_weak; exact E | apply (Hb c Hc)].
    + apply Qltb_false_iff in E. apply Qnot_lt_le in E.
      constructor; [apply IH; assumption |].
      rewrite Forall_forall in *. intros c Hc.
      apply (Permutation_in _ (insert_index_behind_perm v i s)) in Hc.
      destruct Hc as [<- | Hc]; [exact E | apply Hb; assumption].
Qed.

Lemma last_first_argsort_from (v : list Q) (n : nat) :
  forall s0,
    Permutation (fold_right (insert_index_behind v) [] (seq s0 n)) (seq s0 n) /\
    StronglySorted (fun a b => key v a <= key v b)
      (fold_right (insert_index_behind v) [] (seq s0 n)).
Proof.
  induction n as [| n IH]; intro s0; simpl.
  - split; constructor.
  - destruct (IH (S s0)) as [Hperm Hsorted]. split.
    + eapply perm_trans;
        [apply insert_index_behind_perm | apply perm_skip; exact Hperm].
    + apply insert_index_behind_sorted. assumption.
Qed.

(** It sorts every Series in ascending order. *)
Lemma last_first_argsort_ascending (v : list Q) :
  ascending_sorts v (last_first_argsort v).
Proof.
  destruct (last_first_argsort_from v (length v) 0%nat) as [Hperm Hsorted].
  split; [exact Hperm |].
  exact (StronglySorted_nth_error _ _ Hsorted).
Qed.

(** One expiration, strikes 16 to 19, and a spot half-way between the
    strikes 18 and 19: their two distances to the spot are equal. *)
Definition tie_frame : DataFrame :=
  [ {| x := 1; y := 16 * 10.885; z := 0.1875 |};
    {| x := 1; y := 17 * 10.885; z := 0.1640625 |};
    {| x := 1; y := 18 * 10.885; z := 0.15625 |};
    {| x := 1; y := 19 * 10.885; z := 0.171875 |} ].

Definition tie_spot : Q := 201.3725.

(** C2, as stated, fails: on that frame an ascending argsort lists the
    later of the two tied rows first, and atm_vol is then the z of the row
    of strike 19, not of the first closest row in input order (strike 18);
    no pair of first-closest observations gives what step 4 returns. *)
Lemma tie_takes_later_row :
  ascending_sorts (distances (near_term_rows tie_frame) tie_spot)
    (last_first_argsort (distances (near_term_rows tie_frame) tie_spot)) /\
  last_first_argsort (distances (near_term_rows tie_frame) tie_spot)
  = [3; 2; 1; 0]%nat /\
  regime_stats last_first_argsort tie_frame tie_spot
  = Return (Some 0.171875, 0.171875 - 0.171875) /\
  ~ (exists i_atm p_atm i_otm p_otm,
       closest_first tie_frame tie_spot i_atm p_atm /\
       closest_first tie_frame (tie_spot + 300) i_otm p_otm /\
       regime_stats last_first_argsort tie_frame tie_spot
       = Return (Some (z p_atm), z p_otm - z p_atm)).
Proof.
  split; [apply last_first_argsort_ascending |].
  split; [vm_compute; reflexivity |].
  assert (Hrun : regime_stats last_first_argsort tie_frame tie_spot
                 = Return (Some 0.171875, 0.171875 - 0.171875))
    by (vm_compute; reflexivity).
  split; [exact Hrun |].
  intros [i [p [io [po [[Hnth [_ [_ Hfirst]]] [_ Hret]]]]]].
  rewrite Hrun in Hret. inversion Hret as [[Hz _]].
  destruct i as [| [| [| [| i]]]]; simpl in Hnth;
    try (inversion Hnth; subst p; simpl in Hz; discriminate).
  - inversion Hnth. subst p.
    specialize (Hfirst 2%nat {| x := 1; y := 18 * 10.885; z := 0.15625 |}
                  ltac:(lia) eq_refl eq_refl).
    vm_compute in Hfirst. discriminate.
  - destruct i; discriminate.
Qed.

(** The stable argsort takes the first of the two tied rows there. *)
Example tie_frame_stable :
  regime_stats stable_argsort tie_frame tie_spot
  = Return (Some 0.15625, 0.171875 - 0.15625).
Proof. vm_compute. reflexivity. Qed.

Lemma regime_stats_picks_closest_witness :
  exists i_atm p_atm i_otm p_otm,
    closest tie_frame tie_spot i_atm p_atm /\
    closest tie_frame (tie_spot + 300) i_otm p_otm /\
    regime_stats last_first_argsort tie_frame tie_spot
    = Return (Some (z p_atm), z p_otm - z p_atm).
Proof.
  destruct (regime_stats_picks_closest last_first_argsort tie_frame tie_spot)
    as [ia [pa [io [po [Ca [Co [Hr _]]]]]]].
  - discriminate.
  - apply last_first_argsort_ascending.
  - apply last_first_argsort_ascending.
  - exists ia, pa, io, po. auto.
Defined.

(* ------------------------------------------------------------------ *)
(** ** The mesh *)

Lemma length_linspace (start stop : Q) (num : nat) :
  length (linspace start stop num) = num.
Proof. unfold linspace. rewrite length_map, length_seq. reflexivity. Qed.

Lemma nth_map_seq (f : nat -> Q) (num j : nat) :
  (j < num)%nat -> nth j (map f (seq 0 num)) 0 = f j.
Proof.
  intro H. apply nth_error_nth. rewrite nth_error_map, nth_error_seq.
  replace (Nat.ltb j num) with true by (symmetry; apply Nat.ltb_lt; exact H).
  reflexivity.
Qed.

(** The 30 values are evenly spaced: the j-th is start + j * (stop - start) / 29. *)
Lemma linspace_30_nth (start stop : Q) (j : nat) :
  (j < 30)%nat ->
  nth j (linspace start stop 30) 0
  == start + inject_Z (Z.of_nat j) * ((stop - start) / 29).
Proof.
  intro H. unfold linspace. rewrite nth_map_seq by exact H.
  change (inject_Z (Z.of_nat (30 - 1))) with 29.
  destruct (Nat.ltb 1 30 && Nat.eqb j (30 - 1))%bool eqn:E.
  - apply andb_true_iff in E. destruct E as [_ E].
    apply Nat.eqb_eq in E. subst j. simpl. field.
  - reflexivity.
Qed.

Lemma linspace_30_ends (start stop : Q) :
  nth 0 (linspace start stop 30) 0 == start /\
  nth 29 (linspace start stop 30) 0 = stop.
Proof.
  split.
  - rewrite linspace_30_nth by lia. simpl. field.
  - reflexivity.
Qed.

Lemma nth_map_const {A : Type} (row : list Q) (l : list A) (i : nat) :
  (i < length l)%nat -> nth i (map (fun _ => row) l) [] = row.
Proof.
  revert i. induction l as [| a l IH]; intros i H; simpl in *; [lia |].
  destruct i; [reflexivity | apply IH; lia].
Qed.

Lemma meshgrid_XI (tx ty : list Q) (i j : nat) :
  (i < length ty)%nat -> at2 (fst (meshgrid tx ty)) i j = nth j tx 0.
Proof.
  intro H. unfold at2, meshgrid. simpl. rewrite nth_map_const by exact H.
  reflexivity.
Qed.

Lemma meshgrid_YI (tx ty : list Q) (i j : nat) :
  (i < length ty)%nat -> (j < length tx)%nat ->
  at2 (snd (meshgrid tx ty)) i j = nth i ty 0.
Proof.
  intros Hi Hj. unfold at2, meshgrid. simpl.
  rewrite (nth_indep _ [] (map (fun _ => 0) tx)) by (rewrite length_map; exact Hi).
  rewrite (map_nth (fun v => map (fun _ => v) tx) ty 0 i).
  revert j Hj. generalize (nth i ty 0). intro v.
  induction tx as [| a tx IH]; intros j Hj; simpl in *; [lia |].
  destruct j; [reflexivity | apply IH; lia].
Qed.

Lemma meshgrid_shape (tx ty : list Q) :
  length tx = 30%nat -> length ty = 30%nat ->
  shape_30_30 (fst (meshgrid tx ty)) /\ shape_30_30 (snd (meshgrid tx ty)).
Proof.
  intros Hx Hy. unfold shape_30_30, meshgrid. simpl.
  rewrite !length_map. repeat split; try assumption.
  - apply Forall_forall. intros row H. apply in_map_iff in H.
    destruct H as [_ [<- _]]. assumption.
  - apply Forall_forall. intros row H. apply in_map_iff in H.
    destruct H as [v [<- _]]. rewrite length_map. assumption.
Qed.

Lemma length_zip_with {A B C : Type} (f : A -> B -> C) (l : list A) :
  forall m n, length l = n -> length m = n -> length (zip_with f l m) = n.
Proof.
  induction l as [| a l IH]; intros [| b m] n Hl Hm; simpl in *;
    try congruence.
  destruct n; [discriminate |]. f_equal. apply IH; congruence.
Qed.

Lemma nth_zip_with {A B C : Type} (f : A -> B -> C) (da : A) (db : B) (dc : C)
  (l : list A) :
  forall m i, (i < length l)%nat -> length m = length l ->
    nth i (zip_with f l m) dc = f (nth i l da) (nth i m db).
Proof.
  induction l as [| a l IH]; intros [| b m] i Hi Hm; simpl in *;
    try lia; try discriminate.
  destruct i; [reflexivity | apply IH; lia].
Qed.

Lemma zip_with_shape (f : Q -> Q -> Q) (a b : list (list Q)) :
  shape_30_30 a -> shape_30_30 b ->
  shape_30_30 (zip_with (zip_with f) a b) /\
  forall i j, (i < 30)%nat -> (j < 30)%nat ->
    at2 (zip_with (zip_with f) a b) i j = f (at2 a i j) (at2 b i j).
Proof.
  intros [Ha Hra] [Hb Hrb].
  assert (Hrow : forall i, (i < 30)%nat ->
            nth i (zip_with (zip_with f) a b) []
            = zip_with f (nth i a []) (nth i b []) /\
            length (nth i a []) = 30%nat /\ length (nth i b []) = 30%nat).
  { intros i Hi. split; [| split].
    - apply nth_zip_with; lia.
    - rewrite Forall_forall in Hra. apply Hra. apply nth_In. lia.
    - rewrite Forall_forall in Hrb. apply Hrb. apply nth_In. lia. }
  assert (Hlen : length (zip_with (zip_with f) a b) = 30%nat)
    by (apply length_zip_with; assumption).
  split; [split; [exact Hlen |] |].
  - apply Forall_forall. intros row Hin.
    apply (In_nth _ _ []) in Hin. destruct Hin as [i [Hi <-]].
    rewrite Hlen in Hi. destruct (Hrow i Hi) as [-> [H1 H2]].
    apply length_zip_with; assumption.
  - intros i j Hi Hj. unfold at2. destruct (Hrow i Hi) as [-> [H1 H2]].
    apply nth_zip_with; lia.
Qed.

(* ------------------------------------------------------------------ *)
(** ** The surface fitter *)

(** [g] is the 30 by 30 mesh over [x0, x1] by [y0, y1]: column j is at
    x0 + j (x1 - x0) / 29, row i at y0 + i (y1 - y0) / 29, and the height
    at a node is the interpolant [rbf] evaluated there. *)
Definition regular_grid (g : Grid) (rbf : Q -> Q -> Q) (x0 x1 y0 y1 : Q)
  : Prop :=
  shape_30_30 (XI g) /\ shape_30_30 (YI g) /\ shape_30_30 (ZI g) /\
  forall i j, (i < 30)%nat -> (j < 30)%nat ->
    at2 (XI g) i j == x0 + inject_Z (Z.of_nat j) * ((x1 - x0) / 29) /\
    at2 (YI g) i j == y0 + inject_Z (Z.of_nat i) * ((y1 - y0) / 29) /\
    at2 (ZI g) i j = rbf (at2 (XI g) i j) (at2 (YI g) i j).

(** The arguments of the [Rbf] call: the three columns of the frame. *)
Definition Rbf_call (Rbf : list Q -> list Q -> list Q -> result (Q -> Q -> Q))
  (df : DataFrame) : result (Q -> Q -> Q) :=
  Rbf (map inject_Z (map x df)) (map y df) (map z df).

Section Fitter.

Variable Rbf : list Q -> list Q -> list Q -> result (Q -> Q -> Q).

Lemma rbf_interpolation_empty :
  rbf_interpolation Rbf [] = Raise (KeyError "x").
Proof. reflexivity. Qed.

(** On a non-empty frame the fitter raises exactly when the [Rbf]
    constructor does, and otherwise returns the regular mesh over the
    span of the frame. *)
Lemma rbf_interpolation_nonempty (df : DataFrame) :
  df <> [] ->
  (forall e, Rbf_call Rbf df = Raise e -> rbf_interpolation Rbf df = Raise e) /\
  (forall rbf, Rbf_call Rbf df = Return rbf ->
     exists g,
       rbf_interpolation Rbf df = Return g /\
       regular_grid g rbf
         (inject_Z (Zseries_min (map x df))) (inject_Z (Zseries_max (map x df)))
         (Qseries_min (map y df)) (Qseries_max (map y df))).
Proof.
  intro Hdf. destruct df as [| p0 df']; [congruence |].
  unfold rbf_interpolation, Rbf_call, column, bind.
  set (df := p0 :: df').
  set (tx := linspace _ _ 30). set (ty := linspace _ _ 30).
  assert (Hx : length tx = 30%nat) by apply length_linspace.
  assert (Hy : length ty = 30%nat) by apply length_linspace.
  split.
  - intros e He. rewrite He. reflexivity.
  - intros rbf Hr. rewrite Hr.
    eexists. split; [reflexivity |].
    destruct (meshgrid_shape tx ty Hx Hy) as [Sx Sy].
    destruct (zip_with_shape rbf _ _ Sx Sy) as [Sz Hz].
    unfold regular_grid. cbn [XI YI ZI].
    split; [exact Sx |]. split; [exact Sy |]. split; [exact Sz |].
    intros i j Hi Hj. split; [| split].
    + change (map (fun _ : Q => tx) ty) with (fst (meshgrid tx ty)).
      rewrite meshgrid_XI by lia. apply linspace_30_nth. exact Hj.
    + change (map (fun v : Q => map (fun _ : Q => v) tx) ty)
        with (snd (meshgrid tx ty)).
      rewrite meshgrid_YI by lia. apply linspace_30_nth. exact Hi.
    + apply Hz; assumption.
Qed.

(** C8. On a frame with at least two distinct x and two distinct y, the
    mesh spans [xmin, xmax] by [ymin, ymax], the least and greatest x and
    y of the frame, with xmin < xmax and ymin < ymax; the fitter raises
    only what the Rbf constructor raises, and whenever that constructor
    returns, the fitter returns a grid whose three arrays are 30 by 30,
    with 30 evenly spaced x-coordinates from xmin to xmax and 30 evenly
    spaced y-coordinates from ymin to ymax, whatever the number of
    observations. *)
Theorem grid_30_30 (df : DataFrame) :
  (exists p q, In p df /\ In q df /\ x p <> x q) ->
  (exists p q, In p df /\ In q df /\ ~ y p == y q) ->
  exists (xmin xmax : Z) (ymin ymax : Q),
    (In xmin (map x df) /\ forall p, In p df -> (xmin <= x p)%Z) /\
    (In xmax (map x df) /\ forall p, In p df -> (x p <= xmax)%Z) /\
    (In ymin (map y df) /\ forall p, In p df -> ymin <= y p) /\
    (In ymax (map y df) /\ forall p, In p df -> y p <= ymax) /\
    (xmin < xmax)%Z /\ ymin < ymax /\
    (forall e, Rbf_call Rbf df = Raise e -> rbf_interpolation Rbf df = Raise e) /\
    (forall rbf, Rbf_call Rbf df = Return rbf ->
       exists g,
         rbf_interpolation Rbf df = Return g /\
         regular_grid g rbf (inject_Z xmin) (inject_Z xmax) ymin ymax).
Proof.
  intros [p [q [Hp [Hq Hxpq]]]] [p' [q' [Hp' [Hq' Hypq]]]].
  assert (Hdf : df <> []) by (intro E; rewrite E in Hp; exact Hp).
  assert (Hxs : map x df <> []) by (destruct df; [congruence | discriminate]).
  assert (Hys : map y df <> []) by (destruct df; [congruence | discriminate]).
  destruct (Zseries_min_spec _ Hxs) as [Hxmin_in Hxmin].
  destruct (Zseries_max_spec _ Hxs) as [Hxmax_in Hxmax].
  destruct (Qseries_min_spec _ Hys) as [Hymin_in Hymin].
  destruct (Qseries_max_spec _ Hys) as [Hymax_in Hymax].
  exists (Zseries_min (map x df)), (Zseries_max (map x df)),
         (Qseries_min (map y df)), (Qseries_max (map y df)).
  assert (Hin_x : forall r, In r df -> In (x r) (map x df))
    by (intros; apply in_map; assumption).
  assert (Hin_y : forall r, In r df -> In (y r) (map y df))
    by (intros; apply in_map; assumption).
  split; [split; [assumption | intros; apply Hxmin; auto] |].
  split; [split; [assumption | intros; apply Hxmax; auto] |].
  split; [split; [assumption | intros; apply Hymin; auto] |].
  split; [split; [assumption | intros; apply Hymax; auto] |].
  split; [| split].
  - pose proof (Hxmin _ (Hin_x _ Hp)). pose proof (Hxmin _ (Hin_x _ Hq)).
    pose proof (Hxmax _ (Hin_x _ Hp)). pose proof (Hxmax _ (Hin_x _ Hq)).
    lia.
  - pose proof (Hymin _ (Hin_y _ Hp')). pose proof (Hymin _ (Hin_y _ Hq')).
    pose proof (Hymax _ (Hin_y _ Hp')). pose proof (Hymax _ (Hin_y _ Hq')).
    destruct (Qlt_le_dec (Qseries_min (map y df)) (Qseries_max (map y df)))
      as [Hlt | Hle]; [assumption |].
    exfalso. apply Hypq. apply Qle_antisym.
    + eapply Qle_trans; [eassumption |].
      eapply Qle_trans; [exact Hle | assumption].
    + eapply Qle_trans; [eassumption |].
      eapply Qle_trans; [exact Hle | assumption].
  - exact (rbf_interpolation_nonempty df Hdf).
Qed.

End Fitter.

Lemma grid_30_30_witness :
  exists (xmin xmax : Z) (ymin ymax : Q),
    (In xmin (map x scenario) /\ forall p, In p scenario -> (xmin <= x p)%Z) /\
    (In xmax (map x scenario) /\ forall p, In p scenario -> (x p <= xmax)%Z) /\
    (In ymin (map y scenario) /\ forall p, In p scenario -> ymin <= y p) /\
    (In ymax (map y scenario) /\ forall p, In p scenario -> y p <= ymax) /\
    (xmin < xmax)%Z /\ ymin < ymax /\
    (forall e, Rbf_call Rbf_nearest scenario = Raise e ->
       rbf_interpolation Rbf_nearest scenario = Raise e) /\
    (forall rbf, Rbf_call Rbf_nearest scenario = Return rbf ->
       exists g,
         rbf_interpolation Rbf_nearest scenario = Return g /\
         regular_grid g rbf (inject_Z xmin) (inject_Z xmax) ymin ymax).
Proof.
  apply (grid_30_30 Rbf_nearest scenario).
  - exists {| x := 1; y := 100; z := 0.20 |}, {| x := 7; y := 100; z := 0.19 |}.
    simpl. split; [tauto |]. split; [tauto | discriminate].
  - exists {| x := 1; y := 100; z := 0.20 |}, {| x := 1; y := 103; z := 0.22 |}.
    simpl. split; [tauto |]. split; [tauto | discriminate].
Defined.

(** C6, as stated, fails: the empty frame has fewer than two distinct x,
    and the fitter does not fail with InsufficientDataError on it (it
    fails with the KeyError of the first column access). *)
Lemma fitter_empty_not_insufficient_data :
  degenerate [] /\
  ~ fails_with (rbf_interpolation Rbf_nearest []) "InsufficientDataError".
Proof.
  split.
  - left. intros p q [].
  - simpl. discriminate.
Qed.

(** C6, amended. The fitter does not count distinct x or y values. On the
    empty frame it fails with KeyError 'x' and builds no grid. On a
    non-empty frame, degenerate or not, it fails only with what the Rbf
    constructor raises, and when that constructor returns it returns a 30
    by 30 grid; with a single distinct x that grid puts every node at
    that x. *)
Theorem fitter_counts_nothing
  (Rbf : list Q -> list Q -> list Q -> result (Q -> Q -> Q)) (df : DataFrame) :
  (df = [] -> rbf_interpolation Rbf df = Raise (KeyError "x")) /\
  (df <> [] ->
   (forall e, Rbf_call Rbf df = Raise e -> rbf_interpolation Rbf df = Raise e) /\
   (forall rbf, Rbf_call Rbf df = Return rbf ->
      exists g,
        rbf_interpolation Rbf df = Return g /\
        shape_30_30 (XI g) /\ shape_30_30 (YI g) /\ shape_30_30 (ZI g) /\
        ((forall p q, In p df -> In q df -> x p = x q) ->
         forall p i j, In p df -> (i < 30)%nat -> (j < 30)%nat ->
           at2 (XI g) i j == inject_Z (x p)))).
Proof.
  split; [intros ->; reflexivity |].
  intro Hdf. destruct (rbf_interpolation_nonempty Rbf df Hdf) as [Hraise Hret].
  split; [exact Hraise |].
  intros rbf Hr. destruct (Hret rbf Hr) as [g [Hg [Sx [Sy [Sz Hnodes]]]]].
  exists g. repeat (split; [assumption |]).
  intros Hone p i j Hp Hi Hj.
  destruct (Hnodes i j Hi Hj) as [Hx _]. rewrite Hx.
  assert (Hxs : map x df <> []) by (destruct df; [congruence | discriminate]).
  destruct (Zseries_min_spec _ Hxs) as [Hmin _].
  destruct (Zseries_max_spec _ Hxs) as [Hmax _].
  apply in_map_iff in Hmin. destruct Hmin as [pmin [Emin Hpmin]].
  apply in_map_iff in Hmax. destruct Hmax as [pmax [Emax Hpmax]].
  rewrite <- Emin, <- Emax.
  rewrite (Hone pmin p Hpmin Hp), (Hone pmax p Hpmax Hp). field.
Qed.

(** One expiration, two strikes: a frame with a single distinct x. *)
Definition one_expiration : DataFrame :=
  [ {| x := 1; y := 100; z := 0.20 |}; {| x := 1; y := 103; z := 0.22 |} ].

Lemma fitter_counts_nothing_witness :
  degenerate one_expiration /\
  exists g,
    rbf_interpolation Rbf_nearest one_expiration = Return g /\
    shape_30_30 (XI g) /\ at2 (XI g) 0 29 == 1.
Proof.
  split.
  - left. intros p q Hp Hq. simpl in Hp, Hq.
    destruct Hp as [<- | [<- | []]]; destruct Hq as [<- | [<- | []]];
      reflexivity.
  - destruct (fitter_counts_nothing Rbf_nearest one_expiration) as [_ H].
    destruct (H ltac:(discriminate)) as [_ Hret].
    destruct (Hret _ eq_refl) as [g [Hg [Sx [_ [_ Hone]]]]].
    exists g. split; [exact Hg |]. split; [exact Sx |].
    apply (Hone ltac:(intros p q Hp Hq; simpl in Hp, Hq;
                      destruct Hp as [<- | [<- | []]];
                      destruct Hq as [<- | [<- | []]]; reflexivity)
                {| x := 1; y := 100; z := 0.20 |} 0%nat 29%nat);
      simpl; auto; lia.
Defined.

(* ------------------------------------------------------------------ *)
(** ** The callback on an empty frame *)

(** C7, as stated, fails: on the empty frame the regime statistics do not
    fail with NoNearTermDataError (they fail with the KeyError of the
    column access). *)
Lemma analytics_empty_not_no_near_term :
  ~ fails_with (regime_stats stable_argsort [] 100) "NoNearTermDataError".
Proof. simpl. discriminate. Qed.

(** C7, amended. When the scan yields no observation, the fitter and the
    regime statistics both fail with KeyError 'x', and the callback, which
    stops at the first of them, answers with the empty figure and the
    DATA ERROR line of that KeyError: no grid and no metrics. *)
Theorem empty_frame_data_error
  (argsort : list Q -> list nat)
  (Rbf : list Q -> list Q -> list Q -> result (Q -> Q -> Q))
  (ticker : Ticker) (today : date) (n : Z) (manual_price : option Q)
  (lock_clicks : Z) (relayout : option (list (string * json)))
  (spot : Q) (spot_source : string) :
  data_ingestion ticker manual_price = Return (spot, spot_source) ->
  option_chain_scanner ticker today spot = [] ->
  rbf_interpolation Rbf (option_chain_scanner ticker today spot)
    = Raise (KeyError "x") /\
  regime_stats argsort (option_chain_scanner ticker today spot) spot
    = Raise (KeyError "x") /\
  update_surface argsort Rbf ticker today n manual_price lock_clicks relayout
    = (go_Figure_empty, DATA_ERROR (KeyError "x")) /\
  response_grid
    (update_surface argsort Rbf ticker today n manual_price lock_clicks relayout)
    = None /\
  response_metrics
    (update_surface argsort Rbf ticker today n manual_price lock_clicks relayout)
    = None.
Proof.
  intros Hspot Hdf.
  assert (Hu : update_surface argsort Rbf ticker today n manual_price
                 lock_clicks relayout
               = (go_Figure_empty, DATA_ERROR (KeyError "x"))).
  { unfold update_surface, update_surface_try. rewrite Hspot. simpl.
    rewrite Hdf. reflexivity. }
  rewrite Hu, Hdf. repeat split.
Qed.

(** A feed that lists no expiration. *)
Definition no_expiration : Ticker :=
  {| history_Close := [180];
     options := [];
     option_chain_calls := fun _ => [] |}.

Lemma empty_frame_data_error_witness :
  update_surface stable_argsort Rbf_nearest no_expiration 738000%Z 1 None 0 None
  = (go_Figure_empty, DATA_ERROR (KeyError "x")).
Proof.
  apply (empty_frame_data_error stable_argsort Rbf_nearest no_expiration
           738000%Z 1%Z None 0%Z None (180 * multiplier) "FEED");
    reflexivity.
Defined.

(* ------------------------------------------------------------------ *)
(** ** Determinism *)

(** The surface and the metrics of the core do not depend on the camera
    lock or on the stored camera. *)
Lemma quant_core_camera_independent
  (argsort : list Q -> list nat)
  (Rbf : list Q -> list Q -> list Q -> result (Q -> Q -> Q))
  (df : DataFrame) (spot : Q) (lock_clicks : Z)
  (relayout : option (list (string * json))) :
  match quant_core argsort Rbf df spot lock_clicks relayout,
        quant_core argsort Rbf df spot 0 None with
  | Return (go_Figure g _ _ _, m), Return (go_Figure g' _ _ _, m') =>
      g = g' /\ m = m'
  | Raise e, Raise e' => e = e'
  | _, _ => False
  end.
Proof.
  unfold quant_core.
  destruct (rbf_interpolation Rbf df) as [g | e]; simpl; [| reflexivity].
  destruct (regime_stats argsort df spot) as [[atm_vol skew] | e]; simpl;
    [| reflexivity].
  destruct (metrics_output spot atm_vol skew) as [m | e]; simpl;
    [split; reflexivity | reflexivity].
Qed.

Lemma update_surface_response
  (argsort : list Q -> list nat)
  (Rbf : list Q -> list Q -> list Q -> result (Q -> Q -> Q))
  (ticker : Ticker) (today : date) (n : Z) (manual_price : option Q)
  (lock_clicks : Z) (relayout : option (list (string * json)))
  (spot : Q) (spot_source : string) :
  data_ingestion ticker manual_price = Return (spot, spot_source) ->
  let r := update_surface argsort Rbf ticker today n manual_price
             lock_clicks relayout in
  let r0 := quant_core argsort Rbf (option_chain_scanner ticker today spot)
              spot 0 None in
  response_grid r
  = match r0 with
    | Return (go_Figure g _ _ _, _) => Some g
    | _ => None
    end /\
  response_metrics r
  = match r0 with Return (_, m) => Some m | Raise _ => None end.
Proof.
  intros Hspot r r0. subst r r0.
  unfold update_surface, update_surface_try. rewrite Hspot. simpl.
  pose proof (quant_core_camera_independent argsort Rbf
                (option_chain_scanner ticker today spot) spot
                lock_clicks relayout) as H.
  destruct (quant_core argsort Rbf _ spot lock_clicks relayout)
    as [[[| g sc cam ui] m] | e];
    destruct (quant_core argsort Rbf _ spot 0 None)
      as [[[| g' sc' cam' ui'] m'] | e']; simpl in *; try contradiction.
  - destruct H as [-> ->]. split; reflexivity.
  - split; reflexivity.
Qed.

(** X17. The click count of the update button, the click count of the
    lock and the stored camera do not reach the surface or the metrics:
    two runs of the callback that ingest the same spot and scan the same
    frame give the same surface and the same metrics, whatever these
    three inputs are in each run. *)
Theorem same_inputs_same_outputs
  (argsort : list Q -> list nat)
  (Rbf : list Q -> list Q -> list Q -> result (Q -> Q -> Q))
  (ticker ticker' : Ticker) (today today' : date) (n n' : Z)
  (manual_price manual_price' : option Q) (lock_clicks lock_clicks' : Z)
  (relayout relayout' : option (list (string * json)))
  (spot : Q) (spot_source spot_source' : string) :
  data_ingestion ticker manual_price = Return (spot, spot_source) ->
  data_ingestion ticker' manual_price' = Return (spot, spot_source') ->
  option_chain_scanner ticker today spot
  = option_chain_scanner ticker' today' spot ->
  response_grid
    (update_surface argsort Rbf ticker today n manual_price lock_clicks relayout)
  = response_grid
      (update_surface argsort Rbf ticker' today' n' manual_price'
         lock_clicks' relayout') /\
  response_metrics
    (update_surface argsort Rbf ticker today n manual_price lock_clicks relayout)
  = response_metrics
      (update_surface argsort Rbf ticker' today' n' manual_price'
         lock_clicks' relayout').
Proof.
  intros Hs Hs' Hdf.
  destruct (update_surface_response argsort Rbf ticker today n manual_price
              lock_clicks relayout spot spot_source Hs) as [Hg Hm].
  destruct (update_surface_response argsort Rbf ticker' today' n' manual_price'
              lock_clicks' relayout' spot spot_source' Hs') as [Hg' Hm'].
  rewrite Hg, Hm, Hg', Hm', Hdf. split; reflexivity.
Qed.

(** The same chain ten days later, with another close. *)
Definition ten_days_later : Ticker :=
  {| history_Close := [181; 182];
     options := [738011; 738012; 738013; 738014; 738015; 738016]%Z;
     option_chain_calls := fun _ => [sample_row] |}.

Lemma same_inputs_same_outputs_witness :
  response_grid
    (update_surface stable_argsort Rbf_nearest six_expirations 738000%Z 1
       (Some 100) 0 None)
  = response_grid
      (update_surface stable_argsort Rbf_nearest ten_days_later 738010%Z 2
         (Some 100) 1 (Some [("scene.camera", "eye")])) /\
  response_metrics
    (update_surface stable_argsort Rbf_nearest six_expirations 738000%Z 1
       (Some 100) 0 None)
  = response_metrics
      (update_surface stable_argsort Rbf_nearest ten_days_later 738010%Z 2
         (Some 100) 1 (Some [("scene.camera", "eye")])).
Proof.
  apply (same_inputs_same_outputs stable_argsort Rbf_nearest
           six_expirations ten_days_later 738000%Z 738010%Z 1%Z 2%Z
           (Some 100) (Some 100) 0%Z 1%Z None
           (Some [("scene.camera", "eye")]) 100 "MANUAL" "MANUAL");
    reflexivity.
Defined.

(** That run is a success: it has a surface and metrics. *)
Example six_expirations_success :
  response_grid
    (update_surface stable_argsort Rbf_nearest six_expirations 738000%Z 1
       (Some 100) 0 None) <> None /\
  response_metrics
    (update_surface stable_argsort Rbf_nearest six_expirations 738000%Z 1
       (Some 100) 0 None)
  = Some {| SPOT_PRICE := 100; ATM_VOL := 0.2; SKEW := 0.2 - 0.2;
            REGIME := "NEUTRAL"; REGIME_color := COLORS_gold |}.
Proof. split; [vm_compute; discriminate | reflexivity]. Qed.

(* ------------------------------------------------------------------ *)
(** ** Concrete runs of the ingestion, the mask and the label *)

Lemma manual_spot_override_witness :
  data_ingestion six_expirations (Some 2000) = Return (2000, "MANUAL") /\
  data_ingestion six_expirations (Some 0) = Return (9.2 * 10.885, "FEED") /\
  data_ingestion six_expirations None = Return (9.2 * 10.885, "FEED").
Proof.
  split; [| split].
  - destruct (manual_spot_override six_expirations (Some 2000)) as [H _].
    apply H; [reflexivity | discriminate].
  - destruct (manual_spot_override six_expirations (Some 0)) as [_ H].
    apply (H []); [right; exists 0; split; reflexivity | reflexivity].
  - destruct (manual_spot_override six_expirations None) as [_ H].
    apply (H []); [left; reflexivity | reflexivity].
Defined.


(** A row whose scaled strike is exactly the lower bound of the band. *)
Definition boundary_row : OptionRow :=
  {| strike := 85 / 10.885; impliedVolatility := 0.3 |}.

Lemma band_filter_witness :
  (100 * 0.85 < y (raw_point 5 sample_row) /\
   y (raw_point 5 sample_row) < 100 * 1.15) /\
  mask 100 boundary_row = false /\
  In (raw_point 3 sample_row) (option_chain_scanner six_expirations 738000%Z 100).
Proof.
  destruct (band_filter six_expirations 738000%Z 100)
    as (_ & _ & Hband & Hout & Hin & _).
  split; [| split].
  - apply Hband. exact six_expirations_fifth.
  - apply Hout. left. reflexivity.
  - apply (Hin 738003%Z sample_row).
    + simpl. tauto.
    + simpl. tauto.
    + split; reflexivity.
Defined.


(* ================================================================== *)
(** * Further properties of the callbacks *)

(* ------------------------------------------------------------------ *)
(** ** The lock status ([toggle_lock]) *)

Definition COLORS_text : string := "#c9d1d9".

(** A CSS style dict. *)
Definition style : Type := list (string * string).

(** [toggle_lock(n)]: the text and the style of the lock status. *)
Definition toggle_lock (n : Z) : string * style :=
  if (n mod 2 =? 1)%Z then
    ("LOCKED",
     [("marginLeft", "10px"); ("fontSize", "12px");
      ("color", COLORS_red); ("fontWeight", "bold")])
  else
    ("UNLOCKED",
     [("marginLeft", "10px"); ("fontSize", "12px"); ("color", COLORS_text)]).

Lemma toggle_lock_status (n : Z) :
  (fst (toggle_lock n) = "LOCKED" <-> (n mod 2 = 1)%Z) /\
  (fst (toggle_lock n) = "UNLOCKED" <-> (n mod 2 <> 1)%Z).
Proof.
  unfold toggle_lock. destruct (n mod 2 =? 1)%Z eqn:E; simpl.
  - apply Z.eqb_eq in E. split; split; intro H;
      try reflexivity; try assumption; try discriminate; contradiction.
  - apply Z.eqb_neq in E. split; split; intro H;
      try reflexivity; try assumption; try discriminate; contradiction.
Qed.

(** X1. Every click flips the lock status, two clicks restore it (text and
    style), for negative counts too, and the page starts UNLOCKED. *)
Theorem toggle_lock_alternates (n : Z) :
  fst (toggle_lock (n + 1)) <> fst (toggle_lock n) /\
  toggle_lock (n + 2) = toggle_lock n /\
  (fst (toggle_lock n) = "LOCKED" \/ fst (toggle_lock n) = "UNLOCKED") /\
  fst (toggle_lock 0) = "UNLOCKED".
Proof.
  assert (H2 : ((n + 2) mod 2 = n mod 2)%Z).
  { replace (n + 2)%Z with (n + 1 * 2)%Z by lia. apply Z.mod_add. lia. }
  assert (Hn : (n mod 2 = 0 \/ n mod 2 = 1)%Z)
    by (pose proof (Z.mod_pos_bound n 2); lia).
  assert (H1 : ((n + 1) mod 2 = 1 - n mod 2)%Z).
  { rewrite Z.add_mod by lia. destruct Hn as [-> | ->]; reflexivity. }
  split; [| split; [| split]].
  - unfold toggle_lock. rewrite H1.
    destruct Hn as [-> | ->]; simpl; discriminate.
  - unfold toggle_lock. rewrite H2. reflexivity.
  - unfold toggle_lock. destruct (n mod 2 =? 1)%Z; simpl; auto.
  - reflexivity.
Qed.

(* ------------------------------------------------------------------ *)
(** ** Reading a response back *)

Lemma bind_Return_inv {A B : Type} (m : result A) (k : A -> result B) (b : B) :
  bind m k = Return b -> exists a, m = Return a /\ k a = Return b.
Proof.
  destruct m as [a | e]; simpl; intro H; [| discriminate].
  exists a. split; [reflexivity | assumption].
Qed.

Lemma quant_core_Return_inv
  (argsort : list Q -> list nat)
  (Rbf : list Q -> list Q -> list Q -> result (Q -> Q -> Q))
  (df : DataFrame) (spot : Q) (lock_clicks : Z)
  (relayout : option (list (string * json))) (fig : Figure) (m : Metrics) :
  quant_core argsort Rbf df spot lock_clicks relayout = Return (fig, m) ->
  exists g atm_vol skew,
    rbf_interpolation Rbf df = Return g /\
    regime_stats argsort df spot = Return (atm_vol, skew) /\
    metrics_output spot atm_vol skew = Return m /\
    fig = go_Figure g (map x df, map y df, map z df)
            (camera_handling lock_clicks relayout)
            (if (lock_clicks mod 2 =? 1)%Z then "locked" else "unlocked").
Proof.
  unfold quant_core. intro H.
  apply bind_Return_inv in H. destruct H as [g [Hg H]].
  apply bind_Return_inv in H. destruct H as [[atm_vol skew] [Hs H]].
  cbv beta iota zeta in H.
  apply bind_Return_inv in H. destruct H as [m' [Hm H]].
  inversion H. subst. exists g, atm_vol, skew. auto.
Qed.

Lemma update_surface_try_Return_inv
  (argsort : list Q -> list nat)
  (Rbf : list Q -> list Q -> list Q -> result (Q -> Q -> Q))
  (ticker : Ticker) (today : date) (n : Z) (manual_price : option Q)
  (lock_clicks : Z) (relayout : option (list (string * json)))
  (fig : Figure) (m : Metrics) :
  update_surface_try argsort Rbf ticker today n manual_price lock_clicks relayout
  = Return (fig, m) ->
  exists spot spot_source,
    data_ingestion ticker manual_price = Return (spot, spot_source) /\
    quant_core argsort Rbf (option_chain_scanner ticker today spot) spot
      lock_clicks relayout = Return (fig, m).
Proof.
  unfold update_surface_try. intro H.
  apply bind_Return_inv in H. destruct H as [[spot src] [Hs H]].
  exists spot, src. auto.
Qed.

(** The callback answers with the pair of the [try] body, or with the
    empty figure and the error line. *)
Lemma update_surface_cases
  (argsort : list Q -> list nat)
  (Rbf : list Q -> list Q -> list Q -> result (Q -> Q -> Q))
  (ticker : Ticker) (today : date) (n : Z) (manual_price : option Q)
  (lock_clicks : Z) (relayout : option (list (string * json))) :
  (exists fig m,
     update_surface_try argsort Rbf ticker today n manual_price lock_clicks
       relayout = Return (fig, m) /\
     update_surface argsort Rbf ticker today n manual_price lock_clicks relayout
     = (fig, metrics_lines m)) \/
  (exists e,
     update_surface_try argsort Rbf ticker today n manual_price lock_clicks
       relayout = Raise e /\
     update_surface argsort Rbf ticker today n manual_price lock_clicks relayout
     = (go_Figure_empty, DATA_ERROR e)).
Proof.
  unfold update_surface.
  destruct (update_surface_try argsort Rbf ticker today n manual_price
              lock_clicks relayout) as [[fig m] | e].
  - left. exists fig, m. auto.
  - right. exists e. auto.
Qed.

(* ------------------------------------------------------------------ *)
(** ** The camera lock *)

Lemma camera_handling_Some (lock_clicks : Z)
  (relayout : option (list (string * json))) (c : json) :
  camera_handling lock_clicks relayout = Some c <->
  (lock_clicks mod 2 = 1)%Z /\
  exists d, relayout = Some d /\ dict_get "scene.camera" d = Some c.
Proof.
  unfold camera_handling. destruct (lock_clicks mod 2 =? 1)%Z eqn:E.
  - apply Z.eqb_eq in E. destruct relayout as [d |].
    + destruct d as [| kv d]; simpl empty; cbv iota.
      * split; [discriminate |]. intros [_ [d' [Hd Hget]]].
        inversion Hd. subst d'. discriminate.
      * split.
        -- intro H. split; [assumption |]. exists (kv :: d). auto.
        -- intros [_ [d' [Hd Hget]]]. inversion Hd. subst d'. assumption.
    + split; [discriminate |]. intros [_ [d [Hd _]]]. discriminate.
  - apply Z.eqb_neq in E. split; [discriminate |]. intros [H _]. contradiction.
Qed.

(** X2. On a successful update the figure and the lock status of
    [toggle_lock] agree: uirevision is locked exactly when the status for
    the same click count is LOCKED; an UNLOCKED status leaves the camera
    unset; and the camera is set to c exactly when the status is LOCKED and
    the stored relayout data holds c under scene.camera. *)
Theorem lock_status_matches_figure
  (argsort : list Q -> list nat)
  (Rbf : list Q -> list Q -> list Q -> result (Q -> Q -> Q))
  (ticker : Ticker) (today : date) (n : Z) (manual_price : option Q)
  (lock_clicks : Z) (relayout : option (list (string * json)))
  (fig : Figure) (m : Metrics) :
  update_surface_try argsort Rbf ticker today n manual_price lock_clicks relayout
  = Return (fig, m) ->
  exists g scatter camera uirevision,
    fig = go_Figure g scatter camera uirevision /\
    (uirevision = "locked" <-> fst (toggle_lock lock_clicks) = "LOCKED") /\
    (uirevision = "unlocked" <-> fst (toggle_lock lock_clicks) = "UNLOCKED") /\
    (fst (toggle_lock lock_clicks) = "UNLOCKED" -> camera = None) /\
    (forall c, camera = Some c <->
       fst (toggle_lock lock_clicks) = "LOCKED" /\
       exists d, relayout = Some d /\ dict_get "scene.camera" d = Some c).
Proof.
  intro H. apply update_surface_try_Return_inv in H.
  destruct H as [spot [src [_ H]]].
  apply quant_core_Return_inv in H.
  destruct H as [g [atm_vol [skew [_ [_ [_ ->]]]]]].
  do 4 eexists. split; [reflexivity |].
  destruct (toggle_lock_status lock_clicks) as [HL HU].
  split; [| split; [| split]].
  - rewrite HL. destruct (lock_clicks mod 2 =? 1)%Z eqn:E.
    + apply Z.eqb_eq in E. tauto.
    + apply Z.eqb_neq in E. split; [discriminate | contradiction].
  - rewrite HU. destruct (lock_clicks mod 2 =? 1)%Z eqn:E.
    + apply Z.eqb_eq in E. split; [discriminate | contradiction].
    + apply Z.eqb_neq in E. tauto.
  - rewrite HU. intro Hne.
    destruct (camera_handling lock_clicks relayout) as [c |] eqn:Ec;
      [| reflexivity].
    apply camera_handling_Some in Ec. tauto.
  - intro c. rewrite HL. apply camera_handling_Some.
Qed.

Lemma six_expirations_locked_run :
  exists fig m,
    update_surface_try stable_argsort Rbf_nearest six_expirations 738000%Z 3
      (Some 100) 1 (Some [("scene.camera", "eye")]) = Return (fig, m).
Proof.
  destruct (update_surface_try stable_argsort Rbf_nearest six_expirations
              738000%Z 3 (Some 100) 1 (Some [("scene.camera", "eye")]))
    as [[fig m] | e] eqn:E.
  - exists fig, m. reflexivity.
  - exfalso. vm_compute in E. discriminate.
Qed.

Lemma lock_status_matches_figure_witness :
  exists fig m g scatter camera uirevision,
    update_surface_try stable_argsort Rbf_nearest six_expirations 738000%Z 3
      (Some 100) 1 (Some [("scene.camera", "eye")]) = Return (fig, m) /\
    fig = go_Figure g scatter camera uirevision /\
    (uirevision = "locked" <-> fst (toggle_lock 1) = "LOCKED").
Proof.
  destruct six_expirations_locked_run as [fig [m H]].
  destruct (lock_status_matches_figure _ _ _ _ _ _ _ _ _ _ H)
    as [g [sc [cam [ui [Hf [Hl _]]]]]].
  exists fig, m, g, sc, cam, ui. auto.
Defined.

(** A successful [try] body always returns a drawn figure. *)
Lemma lock_status_shape
  (argsort : list Q -> list nat)
  (Rbf : list Q -> list Q -> list Q -> result (Q -> Q -> Q))
  (ticker : Ticker) (today : date) (n : Z) (manual_price : option Q)
  (lock_clicks : Z) (relayout : option (list (string * json)))
  (fig : Figure) (m : Metrics) :
  update_surface_try argsort Rbf ticker today n manual_price lock_clicks relayout
  = Return (fig, m) ->
  exists g scatter camera uirevision, fig = go_Figure g scatter camera uirevision.
Proof.
  intro H. apply update_surface_try_Return_inv in H.
  destruct H as [spot [src [_ H]]].
  apply quant_core_Return_inv in H.
  destruct H as [g [atm_vol [skew [_ [_ [_ ->]]]]]].
  do 4 eexists. reflexivity.
Qed.

(* ------------------------------------------------------------------ *)
(** ** All or nothing *)

(** X3. A response never has a surface without metrics or metrics without a
    surface: either it carries both, or it is the empty figure with the
    DATA ERROR line. *)
Theorem no_partial_response
  (argsort : list Q -> list nat)
  (Rbf : list Q -> list Q -> list Q -> result (Q -> Q -> Q))
  (ticker : Ticker) (today : date) (n : Z) (manual_price : option Q)
  (lock_clicks : Z) (relayout : option (list (string * json))) :
  let r := update_surface argsort Rbf ticker today n manual_price
             lock_clicks relayout in
  (response_grid r = None <-> response_metrics r = None) /\
  ((exists g m, response_grid r = Some g /\ response_metrics r = Some m) \/
   (exists e, r = (go_Figure_empty, DATA_ERROR e))).
Proof.
  intro r. subst r.
  destruct (update_surface_cases argsort Rbf ticker today n manual_price
              lock_clicks relayout) as [[fig [m [Ht Hu]]] | [e [Ht Hu]]];
    rewrite Hu.
  - destruct (lock_status_shape argsort Rbf ticker today n manual_price
                lock_clicks relayout fig m Ht) as [g [sc [cam [ui ->]]]].
    simpl. split; [split; discriminate |]. left. exists g, m. auto.
  - simpl. split; [tauto |]. right. exists e. reflexivity.
Qed.

(* ------------------------------------------------------------------ *)
(** ** The two skew thresholds *)

Lemma regime_color_cases (skew : Q) :
  (0.04 < skew /\ regime_color skew = COLORS_red) \/
  (~ 0.04 < skew /\ skew < -0.01 /\ regime_color skew = COLORS_green) \/
  (~ 0.04 < skew /\ ~ skew < -0.01 /\ regime_color skew = COLORS_gold).
Proof.
  unfold regime_color.
  destruct (Qgtb skew 0.04) eqn:E1.
  - left. apply Qgtb_iff in E1. auto.
  - apply Qgtb_false_iff in E1. right.
    destruct (Qltb skew (-0.01)) eqn:E2.
    + apply Qltb_iff in E2. left. auto.
    + apply Qltb_false_iff in E2. right. auto.
Qed.

(** X4. The colour of the SKEW and REGIME lines uses wider thresholds than the
    label: red means skew > 0.04 and green means skew < -0.01, so a red line
    is always BEARISH, a green one always BULLISH and a NEUTRAL one always
    gold; but a BEARISH label is printed in gold exactly for
    0.02 < skew <= 0.04 and a BULLISH one in gold exactly for
    -0.01 <= skew < 0. *)
Theorem regime_color_vs_label (skew : Q) :
  (regime_color skew = COLORS_red <-> 0.04 < skew) /\
  (regime_color skew = COLORS_green <-> skew < -0.01) /\
  (regime_color skew = COLORS_red -> regime skew = "BEARISH") /\
  (regime_color skew = COLORS_green -> regime skew = "BULLISH") /\
  (regime skew = "NEUTRAL" -> regime_color skew = COLORS_gold) /\
  (regime skew = "BEARISH" /\ regime_color skew = COLORS_gold <->
   0.02 < skew /\ skew <= 0.04) /\
  (regime skew = "BULLISH" /\ regime_color skew = COLORS_gold <->
   -0.01 <= skew /\ skew < 0).
Proof.
  destruct (regime_color_cases skew) as [[C1 Hc] | [[C1 [C2 Hc]] | [C1 [C2 Hc]]]];
    destruct (regime_cases skew) as [[R1 Hr] | [[R1 [R2 Hr]] | [R1 [R2 Hr]]]];
    rewrite Hc, Hr; unfold COLORS_red, COLORS_green, COLORS_gold;
    try (exfalso; lra);
    repeat split; intros;
    try reflexivity; try discriminate; try assumption; try lra;
    try (match goal with H : _ /\ _ |- _ => destruct H end;
         try discriminate; try lra).
Qed.

Lemma regime_color_vs_label_witness :
  (regime 0.03 = "BEARISH" /\ regime_color 0.03 = COLORS_gold) /\
  (regime (-0.005) = "BULLISH" /\ regime_color (-0.005) = COLORS_gold).
Proof.
  split.
  - destruct (regime_color_vs_label 0.03) as (_ & _ & _ & _ & _ & H & _).
    apply H. split; [reflexivity | discriminate].
  - destruct (regime_color_vs_label (-0.005)) as (_ & _ & _ & _ & _ & _ & H).
    apply H. split; [discriminate | reflexivity].
Defined.

(* ------------------------------------------------------------------ *)
(** ** How a run fails *)

(** Once the spot is ingested, the response is that of the core on the
    scanned frame. *)
Lemma update_surface_of_ingestion
  (argsort : list Q -> list nat)
  (Rbf : list Q -> list Q -> list Q -> result (Q -> Q -> Q))
  (ticker : Ticker) (today : date) (n : Z) (manual_price : option Q)
  (lock_clicks : Z) (relayout : option (list (string * json)))
  (spot : Q) (spot_source : string) :
  data_ingestion ticker manual_price = Return (spot, spot_source) ->
  update_surface argsort Rbf ticker today n manual_price lock_clicks relayout
  = match quant_core argsort Rbf (option_chain_scanner ticker today spot) spot
            lock_clicks relayout with
    | Return (fig, metrics) => (fig, metrics_lines metrics)
    | Raise e => (go_Figure_empty, DATA_ERROR e)
    end.
Proof.
  intro H. unfold update_surface, update_surface_try. rewrite H. reflexivity.
Qed.

(** X5. With no manual price (or a manual price of zero) and a feed that has
    no close, the run ends in the DATA ERROR line of an IndexError, before
    any chain is read. *)
Theorem feed_without_close
  (argsort : list Q -> list nat)
  (Rbf : list Q -> list Q -> list Q -> result (Q -> Q -> Q))
  (ticker : Ticker) (today : date) (n : Z) (manual_price : option Q)
  (lock_clicks : Z) (relayout : option (list (string * json))) :
  truthy manual_price = false ->
  history_Close ticker = [] ->
  data_ingestion ticker manual_price = Raise IndexError /\
  update_surface argsort Rbf ticker today n manual_price lock_clicks relayout
  = (go_Figure_empty, DATA_ERROR IndexError).
Proof.
  intros Hm Hc.
  assert (Hi : data_ingestion ticker manual_price = Raise IndexError).
  { unfold data_ingestion. rewrite Hm, Hc. destruct manual_price; reflexivity. }
  split; [exact Hi |].
  unfold update_surface, update_surface_try. rewrite Hi. reflexivity.
Qed.

(** A feed with no close but a full chain. *)
Definition no_close : Ticker :=
  {| history_Close := [];
     options := [738001; 738002; 738003; 738004; 738005; 738006]%Z;
     option_chain_calls := fun _ => [sample_row] |}.

Lemma feed_without_close_witness :
  data_ingestion no_close (Some 0) = Raise IndexError /\
  update_surface stable_argsort Rbf_nearest no_close 738000%Z 1 (Some 0) 0 None
  = (go_Figure_empty, DATA_ERROR IndexError).
Proof.
  apply (feed_without_close stable_argsort Rbf_nearest no_close 738000%Z 1%Z
           (Some 0) 0%Z None); reflexivity.
Defined.

(** X6. When the Rbf constructor raises on a non-empty scanned frame, the run
    ends in the DATA ERROR line of that very exception: the regime
    statistics are not computed and nothing of the surface is shown. *)
Theorem rbf_failure_is_data_error
  (argsort : list Q -> list nat)
  (Rbf : list Q -> list Q -> list Q -> result (Q -> Q -> Q))
  (ticker : Ticker) (today : date) (n : Z) (manual_price : option Q)
  (lock_clicks : Z) (relayout : option (list (string * json)))
  (spot : Q) (spot_source : string) (e : exn) :
  data_ingestion ticker manual_price = Return (spot, spot_source) ->
  option_chain_scanner ticker today spot <> [] ->
  Rbf_call Rbf (option_chain_scanner ticker today spot) = Raise e ->
  update_surface argsort Rbf ticker today n manual_price lock_clicks relayout
  = (go_Figure_empty, DATA_ERROR e).
Proof.
  intros Hs Hdf He.
  rewrite (update_surface_of_ingestion _ _ _ _ _ _ _ _ _ _ Hs).
  unfold quant_core.
  destruct (rbf_interpolation_nonempty Rbf _ Hdf) as [Hraise _].
  rewrite (Hraise e He). reflexivity.
Qed.

(** A constructor that always fails on a singular system. *)
Definition Rbf_singular (xs ys zs : list Q) : result (Q -> Q -> Q) :=
  Raise (LibraryError "LinAlgError").

Lemma rbf_failure_is_data_error_witness :
  update_surface stable_argsort Rbf_singular six_expirations 738000%Z 1
    (Some 100) 0 None
  = (go_Figure_empty, DATA_ERROR (LibraryError "LinAlgError")).
Proof.
  apply (rbf_failure_is_data_error stable_argsort Rbf_singular six_expirations
           738000%Z 1%Z (Some 100) 0%Z None 100 "MANUAL"
           (LibraryError "LinAlgError")).
  - reflexivity.
  - vm_compute. discriminate.
  - reflexivity.
Defined.

(* ------------------------------------------------------------------ *)
(** ** The unreachable branch of the regime statistics *)

Lemma near_term_rows_nonempty (df : DataFrame) :
  df <> [] -> near_term_rows df <> [].
Proof.
  intro Hdf.
  assert (Hxs : map x df <> []) by (destruct df; [congruence | discriminate]).
  destruct (Zseries_min_spec (map x df) Hxs) as [Hin _].
  apply in_map_iff in Hin. destruct Hin as [p0 [Hx0 Hp0]].
  assert (H : In p0 (near_term_rows df))
    by (apply filter_In; split; [assumption | apply Z.eqb_eq; assumption]).
  intro E. rewrite E in H. exact H.
Qed.

Lemma iloc_raises (df : DataFrame) (idx : list nat) (e : exn) :
  iloc df idx = Raise e -> e = IndexError.
Proof.
  induction idx as [| i idx IH]; simpl; [discriminate |].
  destruct (nth_error df i); [| intro H; inversion H; reflexivity].
  destruct (iloc df idx); simpl; [discriminate |].
  intro H. inversion H. subst. apply IH. reflexivity.
Qed.

Lemma nearest_z_raises (argsort : list Q -> list nat) (near_term : DataFrame)
  (target : Q) (e : exn) :
  nearest_z argsort near_term target = Raise e -> e = IndexError.
Proof.
  unfold nearest_z.
  destruct (iloc near_term _) as [rows | e'] eqn:E; simpl; [discriminate |].
  intro H. inversion H. subst. eapply iloc_raises. exact E.
Qed.

Lemma values0_raises (s : list Q) (e : exn) :
  values0 s = Raise e -> e = IndexError.
Proof. destruct s; simpl; intro H; [inversion H; reflexivity | discriminate]. Qed.

(** The regime statistics on a non-empty frame, as the non-empty branch. *)
Lemma regime_stats_nonempty (argsort : list Q -> list nat) (df : DataFrame)
  (spot : Q) :
  df <> [] ->
  regime_stats argsort df spot
  = (atm_series <- nearest_z argsort (near_term_rows df) spot ;;
     atm_vol <- values0 atm_series ;;
     otm_vol_series <- nearest_z argsort (near_term_rows df) (spot + 300) ;;
     otm_vol <- (if negb (empty otm_vol_series) then values0 otm_vol_series
                 else Return atm_vol) ;;
     Return (Some atm_vol, otm_vol - atm_vol)).
Proof.
  intro Hdf. pose proof (near_term_rows_nonempty df Hdf) as Hne.
  unfold regime_stats. destruct df as [| p0 df']; [congruence |].
  unfold column, bind at 1.
  change (filter (fun p => (x p =? Zseries_min (map x (p0 :: df')))%Z)
            (p0 :: df'))
    with (near_term_rows (p0 :: df')).
  destruct (near_term_rows (p0 :: df')) as [| q near']; [congruence |].
  reflexivity.
Qed.

(** X7. Whatever argsort returns, the regime statistics fail with KeyError 'x'
    exactly on the empty frame and otherwise only with an IndexError; when
    they return, atm_vol is bound, so the branch that sets skew to 0.0 and
    leaves atm_vol unbound is never taken and the metrics lines never fail
    on an unbound atm_vol. *)
Theorem atm_vol_always_bound (argsort : list Q -> list nat) (df : DataFrame)
  (spot : Q) :
  (df = [] <-> regime_stats argsort df spot = Raise (KeyError "x")) /\
  (forall e, regime_stats argsort df spot = Raise e ->
     e = KeyError "x" \/ e = IndexError) /\
  (forall atm_vol skew,
     regime_stats argsort df spot = Return (atm_vol, skew) ->
     exists v m, atm_vol = Some v /\
                 metrics_output spot atm_vol skew = Return m /\
                 ATM_VOL m = v).
Proof.
  destruct df as [| p0 df'].
  - split; [split; reflexivity |]. split.
    + intros e H. inversion H. auto.
    + intros a s H. discriminate.
  - assert (Hdf : p0 :: df' <> []) by discriminate.
    rewrite (regime_stats_nonempty argsort _ spot Hdf).
    destruct (nearest_z argsort (near_term_rows (p0 :: df')) spot)
      as [sa | ea] eqn:Ea; simpl.
    2:{ apply nearest_z_raises in Ea. subst ea.
        split; [split; discriminate |]. split; [| discriminate].
        intros e H. inversion H. auto. }
    destruct (values0 sa) as [a | ea] eqn:Eva; simpl.
    2:{ apply values0_raises in Eva. subst ea.
        split; [split; discriminate |]. split; [| discriminate].
        intros e H. inversion H. auto. }
    destruct (nearest_z argsort (near_term_rows (p0 :: df')) (spot + 300))
      as [so | eo] eqn:Eo; simpl.
    2:{ apply nearest_z_raises in Eo. subst eo.
        split; [split; discriminate |]. split; [| discriminate].
        intros e H. inversion H. auto. }
    destruct so as [| o so']; simpl.
    + split; [split; discriminate |]. split; [discriminate |].
      intros atm_vol skew H. inversion H. subst.
      eexists. eexists. split; [reflexivity |]. split; reflexivity.
    + split; [split; discriminate |]. split; [discriminate |].
      intros atm_vol skew H. inversion H. subst.
      eexists. eexists. split; [reflexivity |]. split; reflexivity.
Qed.

(* ------------------------------------------------------------------ *)
(** ** What the scanner reads *)

Lemma quant_core_empty
  (argsort : list Q -> list nat)
  (Rbf : list Q -> list Q -> list Q -> result (Q -> Q -> Q))
  (spot : Q) (lock_clicks : Z) (relayout : option (list (string * json))) :
  quant_core argsort Rbf [] spot lock_clicks relayout = Raise (KeyError "x").
Proof. reflexivity. Qed.

Lemma nth_error_slice_1_5 {A : Type} (l : list A) (k : nat) :
  nth_error (slice 1 5 l) k
  = if Nat.ltb k 4 then nth_error l (S k) else None.
Proof.
  unfold slice. rewrite nth_error_firstn. change (5 - 1)%nat with 4%nat.
  destruct (Nat.ltb k 4); [| reflexivity].
  rewrite nth_error_skipn. reflexivity.
Qed.

Lemma slice_1_5_short {A : Type} (l : list A) :
  (length l <= 1)%nat -> slice 1 5 l = [].
Proof.
  intro H. destruct l as [| a [| b l]]; simpl in H; try reflexivity. lia.
Qed.

Lemma flat_map_ext_in {A B : Type} (f g : A -> list B) (l : list A) :
  (forall a, In a l -> f a = g a) -> flat_map f l = flat_map g l.
Proof.
  induction l as [| a l IH]; intro H; simpl; [reflexivity |].
  rewrite (H a) by (left; reflexivity). f_equal.
  apply IH. intros b Hb. apply H. right. assumption.
Qed.

Lemma scanner_ext (ticker ticker' : Ticker) (today : date) (spot : Q) :
  slice 1 5 (options ticker) = slice 1 5 (options ticker') ->
  (forall e, In e (slice 1 5 (options ticker)) ->
     option_chain_calls ticker e = option_chain_calls ticker' e) ->
  option_chain_scanner ticker today spot
  = option_chain_scanner ticker' today spot.
Proof.
  intros Hs Hc. unfold option_chain_scanner. rewrite <- Hs.
  apply flat_map_ext_in. intros e He. unfold scan_expiration.
  rewrite (Hc e He). reflexivity.
Qed.

(** X8. A feed that lists at most one expiration gives an empty frame, since
    the first listed expiration is skipped; once the spot is ingested the
    run then ends in the DATA ERROR line of KeyError 'x'. *)
Theorem single_expiration_is_data_error
  (argsort : list Q -> list nat)
  (Rbf : list Q -> list Q -> list Q -> result (Q -> Q -> Q))
  (ticker : Ticker) (today : date) (n : Z) (manual_price : option Q)
  (lock_clicks : Z) (relayout : option (list (string * json)))
  (spot : Q) (spot_source : string) :
  (length (options ticker) <= 1)%nat ->
  data_ingestion ticker manual_price = Return (spot, spot_source) ->
  option_chain_scanner ticker today spot = [] /\
  update_surface argsort Rbf ticker today n manual_price lock_clicks relayout
  = (go_Figure_empty, DATA_ERROR (KeyError "x")).
Proof.
  intros Hlen Hs.
  assert (Hdf : option_chain_scanner ticker today spot = []).
  { unfold option_chain_scanner. rewrite slice_1_5_short by exact Hlen.
    reflexivity. }
  split; [exact Hdf |].
  rewrite (update_surface_of_ingestion _ _ _ _ _ _ _ _ _ _ Hs), Hdf.
  reflexivity.
Qed.

(** A feed that lists a single expiration, with a chain around the spot. *)
Definition one_listed_expiration : Ticker :=
  {| history_Close := [9.2];
     options := [738001%Z];
     option_chain_calls := fun _ => [sample_row] |}.

Lemma single_expiration_is_data_error_witness :
  option_chain_scanner one_listed_expiration 738000%Z 100 = [] /\
  update_surface stable_argsort Rbf_nearest one_listed_expiration 738000%Z 1
    (Some 100) 0 None
  = (go_Figure_empty, DATA_ERROR (KeyError "x")).
Proof.
  apply (single_expiration_is_data_error stable_argsort Rbf_nearest
           one_listed_expiration 738000%Z 1%Z (Some 100) 0%Z None 100 "MANUAL").
  - simpl. lia.
  - reflexivity.
Defined.

(** X9. The frame depends on the feed only through the expirations listed at
    positions 1 to 4 and the call chains of those expirations: two feeds
    that agree there give the same frame, whatever their first listed
    expiration, their later expirations, their other chains and their
    closes are. *)
Theorem scanner_reads_four_chains (ticker ticker' : Ticker) (today : date)
  (spot : Q) :
  (forall i, (1 <= i <= 4)%nat ->
     nth_error (options ticker) i = nth_error (options ticker') i) ->
  (forall i e, (1 <= i <= 4)%nat -> nth_error (options ticker) i = Some e ->
     option_chain_calls ticker e = option_chain_calls ticker' e) ->
  option_chain_scanner ticker today spot
  = option_chain_scanner ticker' today spot.
Proof.
  intros Hopt Hchain. apply scanner_ext.
  - apply nth_error_ext. intro k. rewrite !nth_error_slice_1_5.
    destruct (Nat.ltb k 4) eqn:E; [| reflexivity].
    apply Nat.ltb_lt in E. apply Hopt. lia.
  - intros e He. apply slice_1_5_In in He. destruct He as [i [Hi He]].
    exact (Hchain i e Hi He).
Qed.

(** The feed of [six_expirations] with another first expiration, a seventh
    one, other closes, and other chains outside positions 1 to 4. *)
Definition other_ends : Ticker :=
  {| history_Close := [1; 2; 3];
     options := [737999; 738002; 738003; 738004; 738005; 738400; 738500]%Z;
     option_chain_calls :=
       fun e => if ((738002 <=? e) && (e <=? 738005))%Z then [sample_row]
                else [boundary_row; sample_row] |}.

Lemma scanner_reads_four_chains_witness :
  option_chain_scanner six_expirations 738000%Z 100
  = option_chain_scanner other_ends 738000%Z 100.
Proof.
  apply (scanner_reads_four_chains six_expirations other_ends 738000%Z 100).
  - intros i Hi.
    assert (H : i = 1%nat \/ i = 2%nat \/ i = 3%nat \/ i = 4%nat) by lia.
    destruct H as [-> | [-> | [-> | ->]]]; reflexivity.
  - intros i e Hi He.
    assert (H : i = 1%nat \/ i = 2%nat \/ i = 3%nat \/ i = 4%nat) by lia.
    destruct H as [-> | [-> | [-> | ->]]]; simpl in He; inversion He;
      reflexivity.
Defined.

(** X10. With a manual price that is not zero, the whole response depends on
    the feed only through those four expirations and their chains, and it
    does not depend on the click count of the update button: the closes of
    the feed are never read. *)
Theorem manual_run_ignores_feed_price
  (argsort : list Q -> list nat)
  (Rbf : list Q -> list Q -> list Q -> result (Q -> Q -> Q))
  (ticker ticker' : Ticker) (today : date) (n n' : Z) (p : Q)
  (lock_clicks : Z) (relayout : option (list (string * json))) :
  ~ p == 0 ->
  (forall i, (1 <= i <= 4)%nat ->
     nth_error (options ticker) i = nth_error (options ticker') i) ->
  (forall i e, (1 <= i <= 4)%nat -> nth_error (options ticker) i = Some e ->
     option_chain_calls ticker e = option_chain_calls ticker' e) ->
  update_surface argsort Rbf ticker today n (Some p) lock_clicks relayout
  = update_surface argsort Rbf ticker' today n' (Some p) lock_clicks relayout.
Proof.
  intros Hp Hopt Hchain.
  assert (Hi : forall t, data_ingestion t (Some p) = Return (p, "MANUAL")).
  { intro t. unfold data_ingestion, truthy.
    destruct (Qeq_bool p 0) eqn:E; [| reflexivity].
    apply Qeq_bool_iff in E. contradiction. }
  rewrite (update_surface_of_ingestion _ _ _ _ n _ _ _ _ _ (Hi ticker)).
  rewrite (update_surface_of_ingestion _ _ _ _ n' _ _ _ _ _ (Hi ticker')).
  rewrite (scanner_ext ticker ticker' today p); [reflexivity | |].
  - apply nth_error_ext. intro k. rewrite !nth_error_slice_1_5.
    destruct (Nat.ltb k 4) eqn:E; [| reflexivity].
    apply Nat.ltb_lt in E. apply Hopt. lia.
  - intros e He. apply slice_1_5_In in He. destruct He as [i [Hi' He]].
    exact (Hchain i e Hi' He).
Qed.

Lemma manual_run_ignores_feed_price_witness :
  update_surface stable_argsort Rbf_nearest six_expirations 738000%Z 1
    (Some 100) 1 None
  = update_surface stable_argsort Rbf_nearest other_ends 738000%Z 7
      (Some 100) 1 None.
Proof.
  apply (manual_run_ignores_feed_price stable_argsort Rbf_nearest
           six_expirations other_ends 738000%Z 1%Z 7%Z 100 1%Z None).
  - discriminate.
  - intros i Hi.
    assert (H : i = 1%nat \/ i = 2%nat \/ i = 3%nat \/ i = 4%nat) by lia.
    destruct H as [-> | [-> | [-> | ->]]]; reflexivity.
  - intros i e Hi He.
    assert (H : i = 1%nat \/ i = 2%nat \/ i = 3%nat \/ i = 4%nat) by lia.
    destruct H as [-> | [-> | [-> | ->]]]; simpl in He; inversion He;
      reflexivity.
Defined.

(** X11. The frame has at most four distinct x: there are at most four values,
    the days to the expirations at positions 1 to 4, among which every x
    of the frame lies. *)
Theorem at_most_four_expiries (ticker : Ticker) (today : date) (spot : Q) :
  exists days : list Z,
    (length days <= 4)%nat /\
    days = map (fun e => (e - today)%Z) (slice 1 5 (options ticker)) /\
    forall p, In p (option_chain_scanner ticker today spot) -> In (x p) days.
Proof.
  exists (map (fun e => (e - today)%Z) (slice 1 5 (options ticker))).
  split; [| split; [reflexivity |]].
  - rewrite length_map. unfold slice. apply firstn_le_length.
  - intros p Hp. apply scanner_In in Hp.
    destruct Hp as [e [row [He [_ [_ ->]]]]]. simpl.
    apply in_map_iff. exists e. auto.
Qed.

(** X12. A spot that is zero or negative empties the frame, whatever the feed
    lists, because no strike lies strictly between spot * 0.85 and
    spot * 1.15 then; so a negative manual price always ends in the DATA
    ERROR line of KeyError 'x'. *)
Theorem nonpositive_spot_empties_frame
  (argsort : list Q -> list nat)
  (Rbf : list Q -> list Q -> list Q -> result (Q -> Q -> Q))
  (ticker : Ticker) (today : date) (n : Z)
  (lock_clicks : Z) (relayout : option (list (string * json))) :
  (forall spot, spot <= 0 -> option_chain_scanner ticker today spot = []) /\
  (forall p, p < 0 ->
     update_surface argsort Rbf ticker today n (Some p) lock_clicks relayout
     = (go_Figure_empty, DATA_ERROR (KeyError "x"))).
Proof.
  assert (Hempty : forall spot, spot <= 0 ->
            option_chain_scanner ticker today spot = []).
  { intros spot Hs.
    destruct (option_chain_scanner ticker today spot) as [| p df] eqn:E;
      [reflexivity |].
    assert (Hp : In p (option_chain_scanner ticker today spot))
      by (rewrite E; left; reflexivity).
    apply scanner_In in Hp. destruct Hp as [e [row [_ [_ [Hm _]]]]].
    apply mask_iff in Hm. destruct Hm as [H1 H2]. exfalso. lra. }
  split; [exact Hempty |].
  intros p Hp.
  assert (Hi : data_ingestion ticker (Some p) = Return (p, "MANUAL")).
  { unfold data_ingestion, truthy.
    destruct (Qeq_bool p 0) eqn:E; [| reflexivity].
    apply Qeq_bool_iff in E. exfalso. lra. }
  rewrite (update_surface_of_ingestion _ _ _ _ _ _ _ _ _ _ Hi).
  rewrite (Hempty p) by lra. reflexivity.
Qed.

Lemma nonpositive_spot_empties_frame_witness :
  option_chain_scanner six_expirations 738000%Z 0 = [] /\
  update_surface stable_argsort Rbf_nearest six_expirations 738000%Z 1
    (Some (-100)) 0 None
  = (go_Figure_empty, DATA_ERROR (KeyError "x")).
Proof.
  destruct (nonpositive_spot_empties_frame stable_argsort Rbf_nearest
              six_expirations 738000%Z 1%Z 0%Z None) as [H0 Hneg].
  split.
  - apply H0. discriminate.
  - apply Hneg. reflexivity.
Defined.

(* ------------------------------------------------------------------ *)
(** ** The mesh and the data *)

Lemma linspace_node_between (x0 x1 : Q) (j : nat) (v : Q) :
  x0 <= x1 -> (j < 30)%nat ->
  v == x0 + inject_Z (Z.of_nat j) * ((x1 - x0) / 29) ->
  x0 <= v /\ v <= x1.
Proof.
  intros Hle Hj Hv.
  assert (H0 : 0 <= inject_Z (Z.of_nat j))
    by (change 0 with (inject_Z 0); rewrite <- Zle_Qle; lia).
  assert (H29 : inject_Z (Z.of_nat j) <= 29)
    by (change 29 with (inject_Z 29); rewrite <- Zle_Qle; lia).
  set (t := inject_Z (Z.of_nat j)) in *.
  assert (Hd : 0 <= (x1 - x0) / 29)
    by (apply Qle_shift_div_l; [reflexivity | lra]).
  set (d := (x1 - x0) / 29) in *.
  assert (Hx1 : x1 == x0 + 29 * d) by (unfold d; field).
  assert (Htd : 0 <= t * d) by (apply Qmult_le_0_compat; assumption).
  assert (Hrd : 0 <= (29 - t) * d) by (apply Qmult_le_0_compat; lra).
  rewrite Hv. split; [lra |]. rewrite Hx1.
  assert (E : x0 + 29 * d - (x0 + t * d) == (29 - t) * d) by ring.
  lra.
Qed.

(** X13. Every node of a fitted surface lies in the bounding box of the
    observations: there are observations with the least and greatest x and
    y of the frame, every mesh coordinate lies between them, and the first
    and last columns and rows of the mesh sit on the sides of the box. *)
Theorem mesh_inside_bounding_box
  (Rbf : list Q -> list Q -> list Q -> result (Q -> Q -> Q))
  (df : DataFrame) (g : Grid) :
  rbf_interpolation Rbf df = Return g ->
  exists p_left p_right p_low p_high,
    In p_left df /\ In p_right df /\ In p_low df /\ In p_high df /\
    (forall q, In q df ->
       (x p_left <= x q <= x p_right)%Z /\ y p_low <= y q /\ y q <= y p_high) /\
    forall i j, (i < 30)%nat -> (j < 30)%nat ->
      inject_Z (x p_left) <= at2 (XI g) i j /\
      at2 (XI g) i j <= inject_Z (x p_right) /\
      y p_low <= at2 (YI g) i j /\ at2 (YI g) i j <= y p_high /\
      at2 (XI g) i 0 == inject_Z (x p_left) /\
      at2 (XI g) i 29 == inject_Z (x p_right) /\
      at2 (YI g) 0 j == y p_low /\
      at2 (YI g) 29 j == y p_high.
Proof.
  intro Hg.
  assert (Hdf : df <> []) by (intro E; rewrite E in Hg; discriminate).
  destruct (rbf_interpolation_nonempty Rbf df Hdf) as [Hraise Hret].
  destruct (Rbf_call Rbf df) as [rbf | e] eqn:Er;
    [| rewrite (Hraise e eq_refl) in Hg; discriminate].
  destruct (Hret rbf eq_refl) as [g' [Hg' [_ [_ [_ Hnodes]]]]].
  rewrite Hg in Hg'. inversion Hg'. subst g'. clear Hg'.
  assert (Hxs : map x df <> []) by (destruct df; [congruence | discriminate]).
  assert (Hys : map y df <> []) by (destruct df; [congruence | discriminate]).
  destruct (Zseries_min_spec _ Hxs) as [Hxmin_in Hxmin].
  destruct (Zseries_max_spec _ Hxs) as [Hxmax_in Hxmax].
  destruct (Qseries_min_spec _ Hys) as [Hymin_in Hymin].
  destruct (Qseries_max_spec _ Hys) as [Hymax_in Hymax].
  apply in_map_iff in Hxmin_in. destruct Hxmin_in as [pl [El Hpl]].
  apply in_map_iff in Hxmax_in. destruct Hxmax_in as [pr [Er' Hpr]].
  apply in_map_iff in Hymin_in. destruct Hymin_in as [pb [Eb Hpb]].
  apply in_map_iff in Hymax_in. destruct Hymax_in as [pt [Et Hpt]].
  rewrite <- El in *. rewrite <- Er' in *. rewrite <- Eb in *.
  rewrite <- Et in *.
  exists pl, pr, pb, pt. repeat (split; [assumption |]).
  assert (Hbox : forall q, In q df ->
            (x pl <= x q <= x pr)%Z /\ y pb <= y q /\ y q <= y pt).
  { intros q Hq. split; [split |]; [| | split].
    - apply Hxmin. apply in_map. assumption.
    - apply Hxmax. apply in_map. assumption.
    - apply Hymin. apply in_map. assumption.
    - apply Hymax. apply in_map. assumption. }
  split; [exact Hbox |].
  intros i j Hi Hj.
  assert (Hx01 : inject_Z (x pl) <= inject_Z (x pr))
    by (rewrite <- Zle_Qle; apply (Hbox pr Hpr)).
  assert (Hy01 : y pb <= y pt) by apply (Hbox pt Hpt).
  destruct (Hnodes i j Hi Hj) as [Hx [Hy _]].
  destruct (linspace_node_between _ _ j _ Hx01 Hj Hx) as [Hx_lo Hx_hi].
  destruct (linspace_node_between _ _ i _ Hy01 Hi Hy) as [Hy_lo Hy_hi].
  repeat (split; [assumption |]).
  destruct (Hnodes i 0%nat Hi ltac:(lia)) as [Hx0 _].
  destruct (Hnodes i 29%nat Hi ltac:(lia)) as [Hx29 _].
  destruct (Hnodes 0%nat j ltac:(lia) Hj) as [_ [Hy0 _]].
  destruct (Hnodes 29%nat j ltac:(lia) Hj) as [_ [Hy29 _]].
  split; [rewrite Hx0; simpl; field |].
  split; [rewrite Hx29; simpl; field |].
  split; [rewrite Hy0; simpl; field |].
  rewrite Hy29; simpl; field.
Qed.

Lemma scenario_fitted :
  exists g, rbf_interpolation Rbf_nearest scenario = Return g.
Proof. eexists. reflexivity. Qed.

Lemma mesh_inside_bounding_box_witness :
  exists g p_left p_right,
    rbf_interpolation Rbf_nearest scenario = Return g /\
    In p_left scenario /\ In p_right scenario /\
    inject_Z (x p_left) <= at2 (XI g) 3 7 /\
    at2 (XI g) 3 7 <= inject_Z (x p_right).
Proof.
  destruct scenario_fitted as [g Hg].
  destruct (mesh_inside_bounding_box Rbf_nearest scenario g Hg)
    as [pl [pr [pb [pt [Hl [Hr [_ [_ [_ Hn]]]]]]]]].
  destruct (Hn 3%nat 7%nat ltac:(lia) ltac:(lia)) as [H1 [H2 _]].
  exists g, pl, pr. auto.
Defined.

(* ------------------------------------------------------------------ *)
(** ** The successful run, end to end *)

Section SuccessfulRun.

Variable argsort : list Q -> list nat.
Variable Rbf : list Q -> list Q -> list Q -> result (Q -> Q -> Q).

Lemma regime_stats_closest (df : DataFrame) (spot : Q) :
  df <> [] ->
  stably_sorts (distances (near_term_rows df) spot)
    (argsort (distances (near_term_rows df) spot)) ->
  stably_sorts (distances (near_term_rows df) (spot + 300))
    (argsort (distances (near_term_rows df) (spot + 300))) ->
  exists i_atm p_atm i_otm p_otm,
    closest_first df spot i_atm p_atm /\
    closest_first df (spot + 300) i_otm p_otm /\
    regime_stats argsort df spot = Return (Some (z p_atm), z p_otm - z p_atm).
Proof.
  intros Hdf Hatm Hotm.
  destruct (near_term_closest argsort df spot Hdf Hatm)
    as [_ [ia [pa [Ca Za]]]].
  destruct (near_term_closest argsort df (spot + 300) Hdf Hotm)
    as [_ [io [po [Co Zo]]]].
  exists ia, pa, io, po. split; [assumption |]. split; [assumption |].
  rewrite (regime_stats_nonempty argsort df spot Hdf), Za. simpl.
  rewrite Zo. reflexivity.
Qed.

(** X14. When the spot is ingested, the scanned frame is not empty, argsort
    sorts the two distance Series of the near-term rows stably and the Rbf
    constructor returns, the callback succeeds: the figure holds the 30 by
    30 surface over the span of the frame, the scatter of the three columns
    of the frame, the camera and uirevision of the lock; the metrics hold
    the ingested spot, the z of the nearest near-term observation as ATM
    VOL, the difference to the one nearest to spot + 300 as SKEW, and the
    label and colour of that skew. *)
Theorem callback_succeeds
  (ticker : Ticker) (today : date) (n : Z) (manual_price : option Q)
  (lock_clicks : Z) (relayout : option (list (string * json)))
  (spot : Q) (spot_source : string) (rbf : Q -> Q -> Q) :
  data_ingestion ticker manual_price = Return (spot, spot_source) ->
  option_chain_scanner ticker today spot <> [] ->
  stably_sorts
    (distances (near_term_rows (option_chain_scanner ticker today spot)) spot)
    (argsort
       (distances (near_term_rows (option_chain_scanner ticker today spot))
          spot)) ->
  stably_sorts
    (distances (near_term_rows (option_chain_scanner ticker today spot))
       (spot + 300))
    (argsort
       (distances (near_term_rows (option_chain_scanner ticker today spot))
          (spot + 300))) ->
  Rbf_call Rbf (option_chain_scanner ticker today spot) = Return rbf ->
  exists g i_atm p_atm i_otm p_otm,
    let df := option_chain_scanner ticker today spot in
    closest_first df spot i_atm p_atm /\
    closest_first df (spot + 300) i_otm p_otm /\
    regular_grid g rbf
      (inject_Z (Zseries_min (map x df))) (inject_Z (Zseries_max (map x df)))
      (Qseries_min (map y df)) (Qseries_max (map y df)) /\
    update_surface argsort Rbf ticker today n manual_price lock_clicks relayout
    = (go_Figure g (map x df, map y df, map z df)
         (camera_handling lock_clicks relayout)
         (if (lock_clicks mod 2 =? 1)%Z then "locked" else "unlocked"),
       metrics_lines
         {| SPOT_PRICE := spot;
            ATM_VOL := z p_atm;
            SKEW := z p_otm - z p_atm;
            REGIME := regime (z p_otm - z p_atm);
            REGIME_color := regime_color (z p_otm - z p_atm) |}).
Proof.
  intros Hs Hdf Hatm Hotm Hr.
  destruct (regime_stats_closest _ spot Hdf Hatm Hotm)
    as [ia [pa [io [po [Ca [Co Hstats]]]]]].
  destruct (rbf_interpolation_nonempty Rbf _ Hdf) as [_ Hret].
  destruct (Hret rbf Hr) as [g [Hg Hgrid]].
  exists g, ia, pa, io, po. cbv zeta.
  split; [assumption |]. split; [assumption |]. split; [assumption |].
  rewrite (update_surface_of_ingestion _ _ _ _ _ _ _ _ _ _ Hs).
  unfold quant_core. rewrite Hg. simpl. rewrite Hstats. reflexivity.
Qed.

(** X15. When the spot is at most 2000, every strike of the band lies below
    spot + 300, so otm_vol is the implied volatility of the highest strike
    of the nearest scanned expiration (the first one in input order among
    equal strikes). *)
Theorem otm_is_top_of_band (ticker : Ticker) (today : date) (spot : Q) :
  spot <= 2000 ->
  option_chain_scanner ticker today spot <> [] ->
  stably_sorts
    (distances (near_term_rows (option_chain_scanner ticker today spot)) spot)
    (argsort
       (distances (near_term_rows (option_chain_scanner ticker today spot))
          spot)) ->
  stably_sorts
    (distances (near_term_rows (option_chain_scanner ticker today spot))
       (spot + 300))
    (argsort
       (distances (near_term_rows (option_chain_scanner ticker today spot))
          (spot + 300))) ->
  exists atm_vol i_otm p_otm,
    let df := option_chain_scanner ticker today spot in
    regime_stats argsort df spot = Return (Some atm_vol, z p_otm - atm_vol) /\
    nth_error df i_otm = Some p_otm /\
    (forall q, In q df -> (x p_otm <= x q)%Z) /\
    (forall q, In q df -> x q = x p_otm -> y q <= y p_otm) /\
    (forall j q, (j < i_otm)%nat -> nth_error df j = Some q ->
       x q = x p_otm -> y q < y p_otm).
Proof.
  intros Hspot Hdf Hatm Hotm.
  destruct (regime_stats_closest _ spot Hdf Hatm Hotm)
    as [ia [pa [io [po [_ [[Hnth [Hmin [Hclose Hfirst]]] Hstats]]]]]].
  exists (z pa), io, po. cbv zeta.
  split; [assumption |]. split; [assumption |]. split; [assumption |].
  assert (Hband : forall q, In q (option_chain_scanner ticker today spot) ->
            Qabs (y q - (spot + 300)) == spot + 300 - y q).
  { intros q Hq. apply scanner_In in Hq.
    destruct Hq as [e [row [_ [_ [Hm ->]]]]]. apply mask_iff in Hm.
    destruct Hm as [_ Hup]. simpl y.
    rewrite Qabs_neg by lra. ring. }
  assert (Hpo : In po (option_chain_scanner ticker today spot))
    by (eapply nth_error_In; exact Hnth).
  split.
  - intros q Hq Hx. pose proof (Hclose q Hq Hx) as H.
    rewrite (Hband q Hq), (Hband po Hpo) in H. lra.
  - intros j q Hj Hq Hx. pose proof (Hfirst j q Hj Hq Hx) as H.
    rewrite (Hband q (nth_error_In _ _ Hq)), (Hband po Hpo) in H. lra.
Qed.

(** X16. With a single near-term observation both picks are that observation:
    atm_vol is its z, skew is zero, and the lines read NEUTRAL in gold. *)
Theorem single_near_term_is_neutral (df : DataFrame) (spot : Q) (p : point) :
  near_term_rows df = [p] ->
  stably_sorts (distances [p] spot) (argsort (distances [p] spot)) ->
  stably_sorts (distances [p] (spot + 300))
    (argsort (distances [p] (spot + 300))) ->
  exists skew,
    regime_stats argsort df spot = Return (Some (z p), skew) /\
    skew == 0 /\
    regime skew = "NEUTRAL" /\
    regime_color skew = COLORS_gold.
Proof.
  intros Hnear Hatm Hotm.
  assert (Hdf : df <> []) by (intro E; rewrite E in Hnear; discriminate).
  assert (Hpick : forall target,
            stably_sorts (distances [p] target) (argsort (distances [p] target)) ->
            nearest_z argsort [p] target = Return [z p]).
  { intros target Hst.
    destruct (nearest_z_spec argsort [p] target ltac:(discriminate) Hst)
      as [a [p' [Ha [Hz _]]]].
    destruct a as [| a]; simpl in Ha; [| destruct a; discriminate].
    inversion Ha. subst p'. exact Hz. }
  exists (z p - z p).
  assert (H0 : z p - z p == 0) by ring.
  split; [| split; [exact H0 | split]].
  - rewrite (regime_stats_nonempty argsort df spot Hdf), Hnear.
    rewrite (Hpick spot Hatm). simpl.
    rewrite (Hpick (spot + 300) Hotm). reflexivity.
  - destruct (regime_cases (z p - z p)) as [[R _] | [[_ [R _]] | [_ [_ R]]]];
      [exfalso; lra | exfalso; lra | exact R].
  - destruct (regime_color_cases (z p - z p))
      as [[C _] | [[_ [C _]] | [_ [_ C]]]];
      [exfalso; lra | exfalso; lra | exact C].
Qed.

End SuccessfulRun.

(** A feed whose chains hold three strikes around a spot of 100. *)
Definition three_strikes : Ticker :=
  {| history_Close := [9.2];
     options := [738001; 738002; 738003]%Z;
     option_chain_calls :=
       fun _ => [ {| strike := 9.2; impliedVolatility := 0.20 |};
                  {| strike := 9.5; impliedVolatility := 0.24 |};
                  {| strike := 9.0; impliedVolatility := 0.21 |} ] |}.

Lemma Rbf_nearest_returns (df : DataFrame) :
  df <> [] -> exists rbf, Rbf_call Rbf_nearest df = Return rbf.
Proof.
  destruct df as [| p df']; [congruence | intros _].
  unfold Rbf_call, Rbf_nearest. simpl combine. eexists. reflexivity.
Qed.

Lemma three_strikes_scanned :
  option_chain_scanner three_strikes 738000%Z 100 <> [].
Proof. vm_compute. discriminate. Qed.

Lemma callback_succeeds_witness :
  exists m,
    response_metrics
      (update_surface stable_argsort Rbf_nearest three_strikes 738000%Z 1
         (Some 100) 0 None) = Some m /\
    SPOT_PRICE m = 100.
Proof.
  destruct (Rbf_nearest_returns _ three_strikes_scanned) as [rbf Hrbf].
  destruct (callback_succeeds stable_argsort Rbf_nearest three_strikes
              738000%Z 1%Z (Some 100) 0%Z None 100 "MANUAL" rbf)
    as [g [ia [pa [io [po [_ [_ [_ Hu]]]]]]]].
  - reflexivity.
  - exact three_strikes_scanned.
  - apply stable_argsort_stable.
  - apply stable_argsort_stable.
  - exact Hrbf.
  - rewrite Hu. eexists. split; reflexivity.
Defined.

Lemma otm_is_top_of_band_witness :
  exists atm_vol i_otm p_otm,
    regime_stats stable_argsort
      (option_chain_scanner three_strikes 738000%Z 100) 100
    = Return (Some atm_vol, z p_otm - atm_vol) /\
    nth_error (option_chain_scanner three_strikes 738000%Z 100) i_otm
    = Some p_otm /\
    forall q, In q (option_chain_scanner three_strikes 738000%Z 100) ->
      x q = x p_otm -> y q <= y p_otm.
Proof.
  destruct (otm_is_top_of_band stable_argsort three_strikes 738000%Z 100)
    as [a [i [p [Hs [Hn [_ [Hy _]]]]]]].
  - discriminate.
  - exact three_strikes_scanned.
  - apply stable_argsort_stable.
  - apply stable_argsort_stable.
  - exists a, i, p. auto.
Defined.

Example three_strikes_stats :
  regime_stats stable_argsort
    (option_chain_scanner three_strikes 738000%Z 100) 100
  = Return (Some 0.20, 0.24 - 0.20).
Proof. vm_compute. reflexivity. Qed.

Lemma single_near_term_is_neutral_witness :
  exists skew,
    regime_stats stable_argsort
      (option_chain_scanner six_expirations 738000%Z 100) 100
    = Return (Some (z (raw_point 2 sample_row)), skew) /\
    skew == 0 /\
    regime skew = "NEUTRAL" /\
    regime_color skew = COLORS_gold.
Proof.
  apply (single_near_term_is_neutral stable_argsort
           (option_chain_scanner six_expirations 738000%Z 100) 100
           (raw_point 2 sample_row)).
  - vm_compute. reflexivity.
  - apply stable_argsort_stable.
  - apply stable_argsort_stable.
Defined.
